(** * Voice appointment assistant: session, identity and booking engine

    A shallow embedding of [backend/db.py], [backend/tools.py] and the
    parts of [backend/agent.py] that carry state: the persistent chat
    context and the start-up sequence of [entrypoint].

    The persistent store (Supabase) is an external service.  It is modelled
    as four tables, each a list of rows in insertion order, with the
    equality-filtered select / insert / update / delete operations that
    [db.py] issues against it. *)

From Stdlib Require Import String Ascii List Bool NArith ZArith Lia.
From Stdlib Require Import DecimalString QArith Lqa.
Import ListNotations.
Close Scope Q_scope.
Open Scope list_scope.
Open Scope string_scope.

Set Implicit Arguments.

(** ** Python values used by the code *)

(** The double-quote character, for the JSON payloads. *)
Definition dq : string := String (ascii_of_nat 34) EmptyString.

(** The line feed, for ["\n".join]. *)
Definition nl : string := String (ascii_of_nat 10) EmptyString.

(** [str(n)] for a Python int. *)
Definition str_int (z : Z) : string := NilZero.string_of_int (Z.to_int z).

(** [str(len(l))]. *)
Definition str_len {A} (l : list A) : string :=
  NilZero.string_of_uint (Nat.to_uint (length l)).

(** How an f-string renders a value that may be [None]. *)
Definition fmt (v : option string) : string :=
  match v with
  | Some s => s
  | None => "None"
  end.

(** Truthiness of an optional string: [None] and [""] are falsy. *)
Definition truthy (v : option string) : bool :=
  match v with
  | Some s => negb (s =? "")
  | None => false
  end.

(** [sep.join(l)]. *)
Fixpoint join (sep : string) (l : list string) : string :=
  match l with
  | [] => ""
  | [s] => s
  | s :: rest => s ++ sep ++ join sep rest
  end.

(** ** Rows of the four tables *)

(** Row ids are keys generated by the store.  The code only compares them
    for equality and prints them; they are kept as strings, which is how
    the tool layer receives them ([appointment_id: str]).  A generated key
    is a truthy value, and so is a row: where the code tests
    [if self.user_id] or [if not self._user], the only falsy value is
    [None]. *)
Definition Id := string.

Module User.
Record t := mk {
  id : Id;
  contact_number : string;
  name : option string;
  email : option string
}.
End User.

Module Appointment.
Record t := mk {
  id : Id;
  contact_number : string;
  appointment_time : string;
  details : option string;
  status : string;
  created_at : N
}.
End Appointment.

Module SessionRecord.
Record t := mk {
  session_id : string;
  user_id : option Id;
  metadata : list (string * string);
  started_at : N;
  last_activity_at : N
}.
End SessionRecord.

Module ChatMessage.
Record t := mk {
  user_id : Id;
  role : string;
  content : string;
  created_at : N
}.
End ChatMessage.

(** The store: the tables, the counter the store draws fresh row ids from,
    and the store's clock (the value of [now()]). *)
Record DB := mkDB {
  users : list User.t;
  appointments : list Appointment.t;
  session_memory : list SessionRecord.t;
  messages : list ChatMessage.t;
  next_id : N;
  clock : N
}.

Definition fresh_id (d : DB) : Id :=
  NilZero.string_of_uint (N.to_uint (next_id d)).

Definition with_users (us : list User.t) (d : DB) : DB :=
  mkDB us (appointments d) (session_memory d) (messages d) (next_id d) (clock d).

Definition with_appointments (l : list Appointment.t) (d : DB) : DB :=
  mkDB (users d) l (session_memory d) (messages d) (next_id d) (clock d).

Definition with_session_memory (l : list SessionRecord.t) (d : DB) : DB :=
  mkDB (users d) (appointments d) l (messages d) (next_id d) (clock d).

Definition with_messages (l : list ChatMessage.t) (d : DB) : DB :=
  mkDB (users d) (appointments d) (session_memory d) l (next_id d) (clock d).

Definition bump_id (d : DB) : DB :=
  mkDB (users d) (appointments d) (session_memory d) (messages d)
       (N.succ (next_id d)) (clock d).

(** ** Table operations

    [select] keeps the rows that satisfy the conjunction of the [.eq]
    filters; [update] patches the matching rows in place and answers with
    the patched rows; [delete] removes the matching rows and answers with
    them. *)

Definition select {R} (p : R -> bool) (table : list R) : list R :=
  filter p table.

Definition update {R} (p : R -> bool) (patch : R -> R) (table : list R)
  : list R * list R :=
  (map patch (filter p table),
   map (fun r => if p r then patch r else r) table).

Definition delete {R} (p : R -> bool) (table : list R) : list R * list R :=
  (filter p table, filter (fun r => negb (p r)) table).

(** [response.data[0] if response.data else None]. *)
Definition first_row {R} (data : list R) : option R :=
  match data with
  | r :: _ => Some r
  | [] => None
  end.

(** What the store answers to an insert into [users].  The schema of that
    table is not part of the sources, so whether a row is admitted is left
    to the store: it stores the row and returns it, returns no data, or
    refuses the request, which [execute()] raises as an error. *)
Inductive Reply := Inserted | NoData | Refused.

(** Outcome of a call that may raise. *)
Inductive result (A : Type) : Type :=
| Ret (a : A)
| Exn (e : string).
Arguments Ret {A} a.
Arguments Exn {A} e.

(** ** [db.py] *)

Section Store.

(** The store's verdict on an insert of (contact_number, name, email)
    into the current [users] table. *)
Variable users_reply :
  list User.t -> string -> option string -> option string -> Reply.

Definition get_user_by_contact (contact_number : string) (d : DB)
  : option User.t :=
  first_row (select (fun u => User.contact_number u =? contact_number)
                    (users d)).

Definition opt_eqb (v : option string) (s : string) : bool :=
  match v with
  | Some x => x =? s
  | None => false
  end.

Definition get_user_by_email (email : string) (d : DB) : option User.t :=
  first_row (select (fun u => opt_eqb (User.email u) email) (users d)).

Definition get_user_by_contact_or_email (identifier : string) (d : DB)
  : option User.t :=
  match get_user_by_contact identifier d with
  | Some user => Some user
  | None => get_user_by_email identifier d
  end.

Definition create_user (contact_number : string) (name email : option string)
           (d : DB) : result (option User.t) * DB :=
  let email_col := if truthy email then email else None in
  match users_reply (users d) contact_number name email_col with
  | Inserted =>
      let row := User.mk (fresh_id d) contact_number name email_col in
      (Ret (first_row [row]), bump_id (with_users (users d ++ [row]) d))
  | NoData => (Ret (first_row []), d)
  | Refused => (Exn "APIError", d)
  end.

Definition get_user_by_id (user_id : Id) (d : DB) : option User.t :=
  first_row (select (fun u => User.id u =? user_id) (users d)).

(** The dictionaries [get_appointments] builds. *)
Record ApptView := mkView {
  v_id : Id;
  v_start_time : string;
  v_status : string;
  v_details : option string;
  v_created_at : N
}.

Definition view (appt : Appointment.t) : ApptView :=
  mkView (Appointment.id appt) (Appointment.appointment_time appt)
         (Appointment.status appt) (Appointment.details appt)
         (Appointment.created_at appt).

Definition get_appointments (user_id : Id) (d : DB) : list ApptView :=
  match get_user_by_id user_id d with
  | None => []
  | Some user =>
      map view
          (select (fun a =>
                     (Appointment.contact_number a =? User.contact_number user)
                     && (Appointment.status a =? "booked"))
                  (appointments d))
  end.

Definition create_appointment (user_id : Id) (start_time : string)
           (duration_mins : Z) (summary : option string) (d : DB)
  : option Appointment.t * DB :=
  match get_user_by_id user_id d with
  | None => (None, d)
  | Some user =>
      let details_text :=
        if truthy summary then fmt summary
        else str_int duration_mins ++ " minute appointment" in
      let row := Appointment.mk (fresh_id d) (User.contact_number user)
                                start_time (Some details_text) "booked"
                                (clock d) in
      (first_row [row],
       bump_id (with_appointments (appointments d ++ [row]) d))
  end.

Definition set_time (new_time : string) (a : Appointment.t) : Appointment.t :=
  Appointment.mk (Appointment.id a) (Appointment.contact_number a) new_time
                 (Appointment.details a) (Appointment.status a)
                 (Appointment.created_at a).

Definition set_status (s : string) (a : Appointment.t) : Appointment.t :=
  Appointment.mk (Appointment.id a) (Appointment.contact_number a)
                 (Appointment.appointment_time a) (Appointment.details a) s
                 (Appointment.created_at a).

Definition reschedule_appointment (appointment_id : Id) (new_time : string)
           (d : DB) : option Appointment.t * DB :=
  let (data, table) :=
    update (fun a => (Appointment.id a =? appointment_id)
                     && (Appointment.status a =? "booked"))
           (set_time new_time) (appointments d) in
  (first_row data, with_appointments table d).

Definition cancel_appointment (appointment_id : Id) (d : DB)
  : list Appointment.t * DB :=
  let (data, table) :=
    update (fun a => Appointment.id a =? appointment_id)
           (set_status "cancelled") (appointments d) in
  (data, with_appointments table d).

Definition check_availability (date time_slot : string) (d : DB) : bool :=
  let datetime_str := date ++ "T" ++ time_slot ++ ":00" in
  let data :=
    select (fun a => (Appointment.appointment_time a =? datetime_str)
                     && (Appointment.status a =? "booked"))
           (appointments d) in
  let is_available := Nat.eqb (length data) 0 in
  is_available.

Definition save_message (user_id : Id) (role content : string) (d : DB) : DB :=
  with_messages (messages d ++ [ChatMessage.mk user_id role content (clock d)]) d.

Definition create_session (session_id : string) (d : DB)
  : option SessionRecord.t * DB :=
  let row := SessionRecord.mk session_id None [] (clock d) (clock d) in
  let same := fun s => SessionRecord.session_id s =? session_id in
  let table :=
    if existsb same (session_memory d)
    then map (fun s => if same s then row else s) (session_memory d)
    else (session_memory d ++ [row])%list in
  (first_row [row], with_session_memory table d).

Definition bind_session (user_id : Id) (now : N) (s : SessionRecord.t)
  : SessionRecord.t :=
  SessionRecord.mk (SessionRecord.session_id s) (Some user_id)
                   (SessionRecord.metadata s) (SessionRecord.started_at s) now.

Definition update_session_user (session_id : string) (user_id : Id) (d : DB)
  : option SessionRecord.t * DB :=
  let (data, table) :=
    update (fun s => SessionRecord.session_id s =? session_id)
           (bind_session user_id (clock d)) (session_memory d) in
  (first_row data, with_session_memory table d).

Definition get_session (session_id : string) (d : DB) : option SessionRecord.t :=
  first_row (select (fun s => SessionRecord.session_id s =? session_id)
                    (session_memory d)).

Definition delete_session (session_id : string) (d : DB)
  : list SessionRecord.t * DB :=
  let (data, table) :=
    delete (fun s => SessionRecord.session_id s =? session_id)
           (session_memory d) in
  (data, with_session_memory table d).

End Store.

(** ** The state of one call *)

(** [PersistentChatContext]: the turns of the conversation and the user the
    turns are logged for. *)
Module PersistentChatContext.
Record t := mk {
  items : list (string * string);
  user_id : option Id
}.
End PersistentChatContext.

(** [AgentTools].  A call has one room and one chat context; [_room] and
    [_chat_ctx] say whether the instance was handed them or [None]. *)
Record AgentTools := mkTools {
  _user : option User.t;
  _room : bool;
  _chat_ctx : bool;
  _session_id : string
}.

(** A task handed to the event loop with [asyncio.create_task]. *)
Inductive Task :=
| SaveMessage (user_id : Id) (role content : string).

(** What a call does to the outside, in order: a data packet published to
    the room, [ctx.connect], [ctx.wait_for_participant], the construction
    of a plugin object, [session.start], [asyncio.sleep], the wait for
    [avatar.start] (with the time it took), [session.say], and the final
    wait for the end of the call. *)
Inductive Action :=
| Publish (payload : string)
| Connect
| WaitForParticipant
| Load (component : string)
| StartSession
| Sleep (seconds : Q)
| AvatarStart (waited : Q)
| Say (text : string)
| Listen.

(** The store is shared by all calls; the other fields are the objects of
    this call: the tools instance, the chat context both the agent and the
    tools refer to, the tasks created and not yet run, and the actions
    taken so far. *)
Record World := mkWorld {
  db : DB;
  tools : AgentTools;
  chat : PersistentChatContext.t;
  tasks : list Task;
  trace : list Action
}.

Definition with_db (d : DB) (w : World) : World :=
  mkWorld d (tools w) (chat w) (tasks w) (trace w).

Definition with_tools (t : AgentTools) (w : World) : World :=
  mkWorld (db w) t (chat w) (tasks w) (trace w).

Definition with_chat (c : PersistentChatContext.t) (w : World) : World :=
  mkWorld (db w) (tools w) c (tasks w) (trace w).

Definition with_tasks (l : list Task) (w : World) : World :=
  mkWorld (db w) (tools w) (chat w) l (trace w).

Definition with_trace (l : list Action) (w : World) : World :=
  mkWorld (db w) (tools w) (chat w) (tasks w) l.

(** ** A state monad with exceptions

    A raised exception leaves the state as it was when it was raised. *)

Definition M (A : Type) : Type := World -> result A * World.

Definition ret {A} (a : A) : M A := fun w => (Ret a, w).

Definition bind {A B} (m : M A) (k : A -> M B) : M B :=
  fun w =>
    match m w with
    | (Ret a, w') => k a w'
    | (Exn e, w') => (Exn e, w')
    end.

Definition raise {A} (e : string) : M A := fun w => (Exn e, w).

(** [try: m except Exception: handler]. *)
Definition try_except {A} (m : M A) (handler : string -> M A) : M A :=
  fun w =>
    match m w with
    | (Ret a, w') => (Ret a, w')
    | (Exn e, w') => handler e w'
    end.

Declare Scope monad_scope.
Delimit Scope monad_scope with monad.
Notation "x <- m ;; k" := (bind m (fun x => k))
  (at level 61, m at next level, right associativity) : monad_scope.
Notation "m ;; k" := (bind m (fun _ => k))
  (at level 61, right associativity) : monad_scope.
Open Scope monad_scope.

(** A query of the store. *)
Definition query {A} (f : DB -> A) : M A := fun w => (Ret (f (db w)), w).

(** A statement that changes the store. *)
Definition exec {A} (f : DB -> A * DB) : M A :=
  fun w => let (a, d) := f (db w) in (Ret a, with_db d w).

(** A statement that changes the store or raises. *)
Definition exec_raising {A} (f : DB -> result A * DB) : M A :=
  fun w => let (r, d) := f (db w) in (r, with_db d w).

Definition act (a : Action) : M unit :=
  fun w => (Ret tt, with_trace (trace w ++ [a]) w).

Definition self : M AgentTools := fun w => (Ret (tools w), w).

Definition set_user (user : User.t) : M unit :=
  fun w =>
    let t := tools w in
    (Ret tt, with_tools (mkTools (Some user) (_room t) (_chat_ctx t)
                                 (_session_id t)) w).

(** ** [agent.py]: the persistent chat context *)

Definition PersistentChatContext_init : PersistentChatContext.t :=
  PersistentChatContext.mk [] None.

(** [super().add_message]: append the turn to the context. *)
Definition super_add_message (role content : string)
           (c : PersistentChatContext.t) : PersistentChatContext.t :=
  PersistentChatContext.mk
    (PersistentChatContext.items c ++ [(role, content)])
    (PersistentChatContext.user_id c).

(** The turn is added first; the write to the store is left to a task,
    created only when the user id is truthy ([if self.user_id:]): neither
    [None] nor the empty text. *)
Definition add_message (role content : string) : M (string * string) :=
  fun w =>
    let w1 := with_chat (super_add_message role content (chat w)) w in
    let msg := (role, content) in
    match PersistentChatContext.user_id (chat w1) with
    | Some uid =>
        if truthy (Some uid)
        then (Ret msg,
              with_tasks (tasks w1 ++ [SaveMessage uid role content]) w1)
        else (Ret msg, w1)
    | None => (Ret msg, w1)
    end.

Definition set_user_id (user_id : Id) : M unit :=
  fun w =>
    (Ret tt, with_chat (PersistentChatContext.mk
                          (PersistentChatContext.items (chat w))
                          (Some user_id)) w).

Definition load_messages (msgs : list (string * string)) : M unit :=
  fun w =>
    (Ret tt,
     with_chat (fold_left (fun c m => super_add_message (fst m) (snd m) c)
                          msgs (chat w)) w).

(** The event loop running one task, and all the tasks that are waiting. *)
Definition run_task (t : Task) (d : DB) : DB :=
  match t with
  | SaveMessage uid role content => save_message uid role content d
  end.

Definition run_tasks (w : World) : World :=
  with_tasks [] (with_db (fold_left (fun d t => run_task t d) (tasks w) (db w)) w).

(** ** [tools.py] *)

Section Tools.

Variable users_reply :
  list User.t -> string -> option string -> option string -> Reply.

Definition AgentTools_init (room chat_ctx : bool) (session_id : string)
  : AgentTools :=
  mkTools None room chat_ctx session_id.

Definition payload (event_type message : string) : string :=
  "{" ++ dq ++ "type" ++ dq ++ ": " ++ dq ++ event_type ++ dq ++ ", "
      ++ dq ++ "message" ++ dq ++ ": " ++ dq ++ message ++ dq ++ "}".

Definition _emit_event (event_type message : string) : M unit :=
  t <- self ;;
  if _room t then act (Publish (payload event_type message)) else ret tt.

(** [if self._chat_ctx and hasattr(self._chat_ctx, 'set_user_id')]. *)
Definition tell_chat_ctx (user : User.t) : M unit :=
  t <- self ;;
  if _chat_ctx t then set_user_id (User.id user) else ret tt.

Definition identify_user (identifier : string) : M string :=
  _emit_event "tool_call" ("Identifying user: " ++ identifier) ;;
  found <- query (get_user_by_contact_or_email identifier) ;;
  match found with
  | None =>
      _emit_event "tool_result" "User not found in system" ;;
      ret ("No user found with identifier " ++ identifier
           ++ ". The user needs to create an account first.")
  | Some user =>
      set_user user ;;
      t <- self ;;
      exec (update_session_user (_session_id t) (User.id user)) ;;
      tell_chat_ctx user ;;
      let msg := "User identified: " ++ fmt (User.name user)
                 ++ " (ID: " ++ User.id user ++ ")." in
      _emit_event "tool_result" msg ;;
      ret msg
  end.

Definition create_user_account (contact_number first_name last_name email : string)
  : M string :=
  _emit_event "tool_call"
              ("Creating user account for " ++ first_name ++ " " ++ last_name) ;;
  let full_name := first_name ++ " " ++ last_name in
  created <- exec_raising (create_user users_reply contact_number
                                       (Some full_name) (Some email)) ;;
  match created with
  | Some user =>
      set_user user ;;
      tell_chat_ctx user ;;
      _emit_event "tool_result"
                  ("Account created successfully for " ++ full_name) ;;
      ret ("Account created successfully! Welcome " ++ full_name
           ++ ". Your information has been securely saved.")
  | None =>
      _emit_event "tool_result" "Failed to create account" ;;
      ret "I'm sorry, there was an error creating your account. Please try again."
  end.

Definition check_time_slot_availability (date time : string) : M string :=
  _emit_event "tool_call"
              ("Checking availability for " ++ date ++ " at " ++ time) ;;
  is_available <- query (check_availability date time) ;;
  if is_available : bool
  then ret ("Good news! The time slot on " ++ date ++ " at " ++ time
            ++ " is available.")
  else ret ("I'm sorry, the time slot on " ++ date ++ " at " ++ time
            ++ " is already booked. Would you like to try a different time?").

Definition slots_text : string :=
  "Available slots: Tomorrow at 10:00 AM, Tomorrow at 2:00 PM, and Friday at 11:00 AM.".

Definition fetch_slots : M string :=
  _emit_event "tool_call" "Fetching available slots" ;;
  ret slots_text.

Definition book_appointment (start_time : string) (duration : Z) : M string :=
  t <- self ;;
  match _user t with
  | None => ret "Please identify the user first before booking."
  | Some user =>
      _emit_event "tool_call" ("Booking appointment at " ++ start_time) ;;
      appt <- exec (create_appointment (User.id user) start_time duration None) ;;
      match appt with
      | Some _ =>
          _emit_event "tool_result" "Appointment booked successfully" ;;
          ret ("Appointment booked successfully for " ++ start_time ++ ".")
      | None => ret "Failed to book appointment."
      end
  end.

(** [any(appt['id'] == appointment_id for appt in user_appointments)]. *)
Definition has_id (appointment_id : Id) (user_appointments : list ApptView)
  : bool :=
  existsb (fun appt => v_id appt =? appointment_id) user_appointments.

Definition reschedule_not_found : string :=
  "I couldn't find that appointment. Please check your appointments and try again.".

Definition reschedule_user_appointment (appointment_id : Id) (new_time : string)
  : M string :=
  t <- self ;;
  match _user t with
  | None => ret "Please identify the user first before rescheduling."
  | Some user =>
      _emit_event "tool_call" ("Rescheduling appointment " ++ appointment_id
                               ++ " to " ++ new_time) ;;
      user_appointments <- query (get_appointments (User.id user)) ;;
      let appointment_exists := has_id appointment_id user_appointments in
      if negb appointment_exists
      then ret reschedule_not_found
      else
        res <- exec (reschedule_appointment appointment_id new_time) ;;
        match res with
        | Some _ =>
            _emit_event "tool_result" "Appointment rescheduled successfully" ;;
            ret ("Your appointment has been rescheduled to " ++ new_time ++ ".")
        | None =>
            ret "I'm sorry, there was an error rescheduling your appointment. Please try again."
        end
  end.

Definition describe (a : ApptView) : string :=
  "- Appointment on " ++ v_start_time a ++ " - " ++ fmt (v_details a)
    ++ " (ID: " ++ v_id a ++ ")".

Definition retrieve_appointments : M string :=
  t <- self ;;
  match _user t with
  | None => ret "Please identify the user first."
  | Some user =>
      _emit_event "tool_call" "Retrieving appointments" ;;
      appts <- query (get_appointments (User.id user)) ;;
      match appts with
      | [] => ret "No active appointments found."
      | _ :: _ =>
          let summary := join nl (map describe appts) in
          _emit_event "tool_result"
                      ("Found " ++ str_len appts ++ " appointments") ;;
          ret ("Found " ++ str_len appts ++ " active appointment(s):" ++ nl
               ++ summary)
      end
  end.

Definition cancel_not_found : string :=
  "I couldn't find an active appointment with that ID. Please check your appointments and try again.".

Definition cancel_user_appointment (appointment_id : Id) : M string :=
  t <- self ;;
  match _user t with
  | None => ret "Please identify the user first before canceling an appointment."
  | Some user =>
      _emit_event "tool_call" ("Canceling appointment " ++ appointment_id) ;;
      user_appointments <- query (get_appointments (User.id user)) ;;
      let appointment_exists := has_id appointment_id user_appointments in
      if negb appointment_exists
      then ret cancel_not_found
      else
        res <- exec (cancel_appointment appointment_id) ;;
        match res with
        | _ :: _ =>
            _emit_event "tool_result" "Appointment cancelled successfully" ;;
            ret "Your appointment has been cancelled successfully. Is there anything else I can help you with?"
        | [] =>
            ret "I'm sorry, there was an error cancelling your appointment. Please try again or contact support."
        end
  end.

End Tools.

(** ** [agent.py]: the start-up sequence *)

(** The calls of [entrypoint] into the room, the plugins and the store that
    are made outside any [try]: an exception of one of them ends the run.
    ([AvatarCall] is the construction of the avatar session object, which
    comes before the [try] around [avatar.start].) *)
Inductive Stage :=
| CreateSessionCall
| ConnectCall
| ParticipantCall
| SttCall
| LlmCall
| TtsCall
| VadCall
| AgentCall
| StartCall
| AvatarCall
| SayCall.

(** How a coroutine behaves when it is awaited: it returns or raises after
    some time, or never completes. *)
Inductive Coro :=
| Finishes (after : Q)
| Fails (after : Q) (e : string)
| Hangs.

(** What surrounds one run of [entrypoint]. *)
Record Env := mkEnv {
  room_name : string;
  system_instructions : string;
  participant_present : bool;
  raises : Stage -> bool;
  probe_raises : bool;
  avatar_start : Coro
}.

Section Pipeline.

Variable env : Env.

(** A call that raises when its collaborator fails. *)
Definition call (s : Stage) (a : Action) : M unit :=
  if raises env s then raise "Exception" else act a.

Definition status_payload (component status : string) : string :=
  "{" ++ dq ++ "type" ++ dq ++ ": " ++ dq ++ "system_status" ++ dq ++ ", "
      ++ dq ++ "component" ++ dq ++ ": " ++ dq ++ component ++ dq ++ ", "
      ++ dq ++ "status" ++ dq ++ ": " ++ dq ++ status ++ dq ++ "}".

(** [broadcast_status] catches what [publish_data] raises; the trace
    records the call. *)
Definition broadcast_status (component status : string) : M unit :=
  act (Publish (status_payload component status)).

(** [asyncio.wait_for(coro, timeout)]: the result of [coro] when it
    completes before the timeout, [TimeoutError] otherwise. *)
Definition wait_for (coro : Coro) (timeout : Q) : M unit :=
  match coro with
  | Finishes d =>
      if Qlt_le_dec d timeout
      then act (AvatarStart d)
      else (act (AvatarStart timeout) ;; raise "TimeoutError")
  | Fails d e =>
      if Qlt_le_dec d timeout
      then (act (AvatarStart d) ;; raise e)
      else (act (AvatarStart timeout) ;; raise "TimeoutError")
  | Hangs => act (AvatarStart timeout) ;; raise "TimeoutError"
  end.

Definition avatar_timeout : Q := 20%Q.

Definition greeting : string :=
  "Hello! I'm your clinic appointment assistant. How can I help you today? Would you like to schedule, reschedule, or cancel an appointment?".

Definition probe : M unit :=
  if probe_raises env then raise "Exception"
  else (query (get_session (room_name env)) ;; ret tt).

(** The sequence, without its log lines and without the registration of
    the handlers that only log. *)
Definition entrypoint : M unit :=
  let session_id := room_name env in
  (if raises env CreateSessionCall then raise "Exception"
   else (exec (create_session session_id) ;; ret tt)) ;;
  (fun w => (Ret tt, with_chat PersistentChatContext_init w)) ;;
  add_message "system" (system_instructions env) ;;
  call ConnectCall Connect ;;
  (if participant_present env then ret tt
   else call ParticipantCall WaitForParticipant) ;;
  (fun w => (Ret tt, with_tools (AgentTools_init true true session_id) w)) ;;
  broadcast_status "stt" "initializing" ;;
  call SttCall (Load "stt") ;;
  broadcast_status "stt" "ready" ;;
  broadcast_status "llm" "initializing" ;;
  call LlmCall (Load "llm") ;;
  broadcast_status "llm" "ready" ;;
  broadcast_status "tts" "initializing" ;;
  call TtsCall (Load "tts") ;;
  broadcast_status "tts" "ready" ;;
  broadcast_status "database" "initializing" ;;
  try_except (probe ;; broadcast_status "database" "ready")
             (fun _ => broadcast_status "database" "error") ;;
  call VadCall (Load "vad") ;;
  call AgentCall (Load "agent") ;;
  call StartCall StartSession ;;
  act (Sleep 1%Q) ;;
  broadcast_status "avatar" "initializing" ;;
  call AvatarCall (Load "avatar") ;;
  avatar_ready <-
    try_except
      (wait_for (avatar_start env) avatar_timeout ;;
       broadcast_status "avatar" "ready" ;;
       act (Sleep 2%Q) ;;
       ret true)
      (fun e =>
         if e =? "TimeoutError"
         then (broadcast_status "avatar" "unavailable" ;; ret false)
         else (broadcast_status "avatar" "error" ;; ret false)) ;;
  (if avatar_ready : bool then act (Sleep 1%Q) else ret tt) ;;
  call SayCall (Say greeting) ;;
  act Listen ;;
  exec (delete_session session_id) ;;
  ret tt.

End Pipeline.

(** ** Ownership, as the tool layer resolves it *)

(** The contact number the tools resolve for the caller: the current
    [contact_number] of the row of [users] that has the id of the
    identified user ([get_appointments] starts with this lookup). *)
Definition resolved_contact (w : World) : option string :=
  match _user (tools w) with
  | Some user =>
      option_map User.contact_number (get_user_by_id (User.id user) (db w))
  | None => None
  end.

(** The world in which no appointment has the id [aid]. *)
Definition without_appointment (aid : Id) (w : World) : World :=
  with_db (with_appointments
             (filter (fun a => negb (Appointment.id a =? aid))
                     (appointments (db w)))
             (db w)) w.

(** ** A small clinic, for the examples *)

Definition alice : User.t :=
  User.mk "1" "555-0100" (Some "Alice Smith") (Some "alice@example.org").

Definition bob : User.t :=
  User.mk "2" "555-0200" (Some "Bob Jones") (Some "bob@example.org").

Definition appt_alice : Appointment.t :=
  Appointment.mk "10" "555-0100" "2025-03-01T10:00:00"
                 (Some "30 minute appointment") "booked" 0.

Definition appt_bob : Appointment.t :=
  Appointment.mk "11" "555-0200" "2025-03-02T09:00:00"
                 (Some "30 minute appointment") "booked" 0.

Definition appt_old : Appointment.t :=
  Appointment.mk "12" "555-0100" "2025-02-01T09:00:00"
                 (Some "30 minute appointment") "cancelled" 0.

Definition clinic : DB :=
  mkDB [alice; bob] [appt_alice; appt_bob; appt_old]
       [SessionRecord.mk "session-abc" None [] 0 0] [] 13 0.

(** The call just after start-up: nobody identified yet. *)
Definition call_started : World :=
  mkWorld clinic (AgentTools_init true true "session-abc")
          PersistentChatContext_init [] [].

(** The users table refuses a second row with a contact number it already
    holds.  Modelled from the spec: the table's schema is not in the
    sources; section 3 of the specification declares [contact_number]
    unique. *)
Definition unique_contact (table : list User.t) (contact_number : string)
           (name email : option string) : Reply :=
  if existsb (fun u => User.contact_number u =? contact_number) table
  then Refused
  else Inserted.

(** The same call once Alice has been identified by her number. *)
Definition call_of_alice : World :=
  snd (identify_user "555-0100" call_started).

(** Healthy surroundings in which [avatar.start] never completes. *)
Definition avatar_hangs : Env :=
  mkEnv "session-abc" "You are a helpful assistant." true (fun _ => false)
        false Hangs.

(** ** Notions used in the statements *)

(** The world after [_emit_event]. *)
Definition published (ty msg : string) (w : World) : World :=
  if _room (tools w)
  then with_trace (trace w ++ [Publish (payload ty msg)]) w
  else w.

Definition reschedule_row (aid : Id) (nt : string) (a : Appointment.t)
  : Appointment.t :=
  if (Appointment.id a =? aid) && (Appointment.status a =? "booked")
  then set_time nt a else a.

Definition cancel_row (aid : Id) (a : Appointment.t) : Appointment.t :=
  if Appointment.id a =? aid then set_status "cancelled" a else a.

(** The world after [n] further cancels of the same id. *)
Definition cancel_again (aid : Id) (n : nat) (w : World) : World :=
  Nat.iter n (fun x => snd (cancel_user_appointment aid x)) w.

(** The chat context once it has been told the user. *)
Definition told (uid : Id) (c : PersistentChatContext.t)
  : PersistentChatContext.t :=
  PersistentChatContext.mk (PersistentChatContext.items c) (Some uid).

(** The [email] column of an enrollment: omitted when the string is empty. *)
Definition email_column (email : string) : option string :=
  if truthy (Some email) then Some email else None.

(** The row an accepted enrollment stores. *)
Definition enrolled (d : DB) (contact_number first_name last_name email : string)
  : User.t :=
  User.mk (fresh_id d) contact_number (Some (first_name ++ " " ++ last_name))
          (email_column email).



(** The statement of C7 as the specification words it: every enrollment
    call creates a user with the joined name, [create_user] returns it, and
    it becomes the identified user of the tools. *)
Definition enrollment_always_creates : Prop :=
  forall (reply : list User.t -> string -> option string -> option string
                  -> Reply)
         (w : World) (cn fn ln em : string),
  exists user : User.t,
    fst (create_user reply cn (Some (fn ++ " " ++ ln)) (Some em) (db w))
    = Ret (Some user)
    /\ User.name user = Some (fn ++ " " ++ ln)
    /\ In user (users (db (snd (create_user_account reply cn fn ln em w))))
    /\ _user (tools (snd (create_user_account reply cn fn ln em w)))
       = Some user.

(** A store that answers an insert with no data. *)
Definition silent_store (table : list User.t) (contact_number : string)
           (name email : option string) : Reply := NoData.

(** The tools and the chat context agree on who the caller is: the tools
    hold the context, and the context logs under the id of the user the
    tools have identified. *)
Definition coherent (w : World) : Prop :=
  _chat_ctx (tools w) = true /\
  PersistentChatContext.user_id (chat w) = option_map User.id (_user (tools w)).

(** The row a task writes when the store's clock shows [now]. *)
Definition row_of (now : N) (t : Task) : ChatMessage.t :=
  match t with
  | SaveMessage uid role content => ChatMessage.mk uid role content now
  end.

(** ** Reading a trace *)

Definition is_say (a : Action) : bool :=
  match a with Say _ => true | _ => false end.

Definition is_start (a : Action) : bool :=
  match a with StartSession => true | _ => false end.

Definition is_avatar_wait (a : Action) : bool :=
  match a with AvatarStart _ => true | _ => false end.

(** The avatar stage has resolved: one of its three final statuses has been
    broadcast. *)
Definition is_avatar_resolution (a : Action) : bool :=
  match a with
  | Publish p =>
      (p =? status_payload "avatar" "ready")
      || (p =? status_payload "avatar" "unavailable")
      || (p =? status_payload "avatar" "error")
  | _ => false
  end.

(** The status the avatar stage ends with, for each behaviour of
    [avatar.start]: [ready] when it returns within the timeout,
    [unavailable] when the timeout strikes first (or it raises a
    [TimeoutError] of its own), [error] when it raises anything else. *)
Definition avatar_status (c : Coro) : string :=
  match c with
  | Finishes d =>
      if Qlt_le_dec d avatar_timeout then "ready" else "unavailable"
  | Fails d e =>
      if Qlt_le_dec d avatar_timeout
      then (if e =? "TimeoutError" then "unavailable" else "error")
      else "unavailable"
  | Hangs => "unavailable"
  end.


(** Whether the run ends by an exception escaping [entrypoint]: some call
    made outside a [try] raises. *)
Definition verdict (env : Env) : result unit :=
  if raises env CreateSessionCall || raises env ConnectCall
     || (negb (participant_present env) && raises env ParticipantCall)
     || raises env SttCall || raises env LlmCall || raises env TtsCall
     || raises env VadCall || raises env AgentCall || raises env StartCall
     || raises env AvatarCall || raises env SayCall
  then Exn "Exception" else Ret tt.

(** In [l], every action that satisfies [b] comes after one that
    satisfies [a]. *)
Definition precedes (a b : Action -> bool) (l : list Action) : Prop :=
  forall pre y post, l = (pre ++ y :: post)%list -> b y = true ->
                     exists x, In x pre /\ a x = true.

(** A decision procedure for [precedes]: [seen] tells whether an action
    satisfying [a] has been met. *)
Fixpoint precedes_b (a b : Action -> bool) (seen : bool) (l : list Action)
  : bool :=
  match l with
  | [] => true
  | x :: rest => (negb (b x) || seen) && precedes_b a b (seen || a x) rest
  end.

(** ** [tools.py]: the helpers that only format

    They read neither the store nor the identified user.  Their texts are
    sequences of characters; the case mapping below is the one of the
    letters [a] to [z]. *)

(** [s.replace(old, new)] for a pattern [old] of one character. *)
Fixpoint replace_char (old : ascii) (new : string) (s : string) : string :=
  match s with
  | EmptyString => EmptyString
  | String c rest =>
      if Ascii.eqb c old
      then new ++ replace_char old new rest
      else String c (replace_char old new rest)
  end.

(** [c in s]. *)
Fixpoint contains_char (c : ascii) (s : string) : bool :=
  match s with
  | EmptyString => false
  | String x rest => Ascii.eqb x c || contains_char c rest
  end.

(** [s.split(sep, 1)] for a separator of one character that occurs in [s]:
    the text before its first occurrence and the text after it. *)
Fixpoint split_once (sep : ascii) (s : string) : string * string :=
  match s with
  | EmptyString => (EmptyString, EmptyString)
  | String x rest =>
      if Ascii.eqb x sep then (EmptyString, rest)
      else let (before, after) := split_once sep rest in
           (String x before, after)
  end.

(** [list(s)]: the characters of [s], each as a string. *)
Fixpoint chars (s : string) : list string :=
  match s with
  | EmptyString => []
  | String c rest => String c EmptyString :: chars rest
  end.

Definition upper_char (c : ascii) : ascii :=
  let n := nat_of_ascii c in
  if (97 <=? n)%nat && (n <=? 122)%nat then ascii_of_nat (n - 32) else c.

(** [s.upper()]. *)
Fixpoint upper (s : string) : string :=
  match s with
  | EmptyString => EmptyString
  | String c rest => String (upper_char c) (upper rest)
  end.

Definition formatted_number (mobile_number : string) : string :=
  replace_char ")" ""
    (replace_char "(" "" (replace_char "-" " " mobile_number)).

Definition verify_mobile_number (mobile_number : string) : M string :=
  let formatted := formatted_number mobile_number in
  ret ("I heard your mobile number as: " ++ formatted ++ ". Is that correct?").

Definition verify_name_spelling (name : string) : M string :=
  let spelled := join " - " (chars (upper name)) in
  ret ("Let me confirm the spelling: " ++ spelled ++ ". Is that correct?").

Definition verify_email_spelling (email : string) : M string :=
  if contains_char "@" email
  then
    let (username, domain) := split_once "@" email in
    ret ("Let me confirm your email: " ++ username ++ " at " ++ domain
         ++ ". That's " ++ join " " (chars username) ++ " AT "
         ++ join " " (chars domain) ++ ". Is that correct?")
  else
    ret "The email format seems incorrect. Please provide it again with the @ symbol.".

(** ** More notions used in the statements *)

(** The action publishes the packet [p]. *)
Definition publishes (p : string) (a : Action) : bool :=
  match a with
  | Publish q => q =? p
  | _ => false
  end.

Definition is_publish (a : Action) : bool :=
  match a with
  | Publish _ => true
  | _ => false
  end.

(** The absolute timestamp [check_availability] builds. *)
Definition slot (date time : string) : string := date ++ "T" ++ time ++ ":00".

(** The row is a booked appointment at the time [t]. *)
Definition booked_at (t : string) (a : Appointment.t) : bool :=
  (Appointment.appointment_time a =? t) && (Appointment.status a =? "booked").

(** The record [create_session] upserts. *)
Definition fresh_session (session_id : string) (d : DB) : SessionRecord.t :=
  SessionRecord.mk session_id None [] (clock d) (clock d).

(** The row [create_appointment] inserts for the owner [user]. *)
Definition booked_row (d : DB) (user : User.t) (start_time : string)
           (duration : Z) : Appointment.t :=
  Appointment.mk (fresh_id d) (User.contact_number user) start_time
                 (Some (str_int duration ++ " minute appointment")) "booked"
                 (clock d).

(** Every character of the text is an ASCII character. *)
Fixpoint is_ascii (s : string) : bool :=
  match s with
  | EmptyString => true
  | String c rest => (nat_of_ascii c <? 128)%nat && is_ascii rest
  end.

(** The record belongs to the session [sid]. *)
Definition same_session (sid : string) (s : SessionRecord.t) : bool :=
  SessionRecord.session_id s =? sid.

(** A call whose identified user has no row in the users table. *)
Definition call_of_ghost : World :=
  with_tools (mkTools (Some (User.mk "9" "555-0900" (Some "Gone") None))
                      true true "session-abc")
             call_started.

(** Between [w] and [w'] the call has only published packets, at most two
    of them, and none at all when the tools have no room. *)
Definition only_published (w w' : World) : Prop :=
  exists l : list Action,
    trace w' = (trace w ++ l)%list
    /\ forallb is_publish l = true
    /\ (length l <= 2)%nat
    /\ (_room (tools w) = false -> l = []).

(** The status the store check ends with. *)
Definition database_status (env : Env) : string :=
  if probe_raises env then "error" else "ready".

(** The same surroundings with another outcome of the store check. *)
Definition with_probe (fails : bool) (env : Env) : Env :=
  mkEnv (room_name env) (system_instructions env) (participant_present env)
        (raises env) fails (avatar_start env).

(** The broadcast of [status] for [component]. *)
Definition status (component status : string) : Action -> bool :=
  publishes (status_payload component status).

(** The order of the broadcasts and stages of a run, as pairs (earlier,
    later). *)
Definition stage_order : list ((Action -> bool) * (Action -> bool)) :=
  [ (status "stt" "initializing", status "stt" "ready");
    (status "stt" "ready", status "llm" "initializing");
    (status "llm" "initializing", status "llm" "ready");
    (status "llm" "ready", status "tts" "initializing");
    (status "tts" "initializing", status "tts" "ready");
    (status "tts" "ready", status "database" "initializing");
    (status "database" "initializing", status "database" "ready");
    (status "database" "initializing", status "database" "error");
    (status "database" "initializing", is_start);
    (is_start, status "avatar" "initializing");
    (status "avatar" "initializing", is_avatar_wait);
    (is_avatar_wait, is_avatar_resolution);
    (is_avatar_resolution, is_say) ].

(** The store a run leaves behind: without the session's record when the
    run completes; with it when the run fails after creating it; as it was
    when creating it fails. *)
Definition store_after (env : Env) (d : DB) : DB :=
  match verdict env with
  | Ret _ =>
      snd (delete_session (room_name env)
                          (snd (create_session (room_name env) d)))
  | Exn _ =>
      if raises env CreateSessionCall then d
      else snd (create_session (room_name env) d)
  end.

(** Surroundings in which creating the speech-to-text component raises. *)
Definition stt_fails : Env :=
  mkEnv "session-xyz" "You are a helpful assistant." true
        (fun s => match s with SttCall => true | _ => false end)
        false Hangs.

(** ** The conversation

    Once the start-up sequence has handed over, the language model calls
    tools, the session adds the turns of the conversation to the chat
    context, the event loop runs the tasks that are waiting and time
    passes, in any order. *)

(** The same store at another time. *)
Definition with_clock (now : N) (d : DB) : DB :=
  mkDB (users d) (appointments d) (session_memory d) (messages d) (next_id d)
       now.

Inductive Event :=
| Identify (identifier : string)
| VerifyMobile (mobile_number : string)
| VerifyName (name : string)
| VerifyEmail (email : string)
| Enroll (contact_number first_name last_name email : string)
| CheckSlot (date time : string)
| FetchSlots
| Book (start_time : string) (duration : Z)
| Reschedule (appointment_id : Id) (new_time : string)
| Retrieve
| Cancel (appointment_id : Id)
| Turn (role content : string)
| RunTasks
| Tick.

Section Conversation.

Variable users_reply :
  list User.t -> string -> option string -> option string -> Reply.

(** The world after one event; a tool that raises leaves the world as it
    was when it raised. *)
Definition happen (e : Event) (w : World) : World :=
  match e with
  | Identify identifier => snd (identify_user identifier w)
  | VerifyMobile mobile_number => snd (verify_mobile_number mobile_number w)
  | VerifyName name => snd (verify_name_spelling name w)
  | VerifyEmail email => snd (verify_email_spelling email w)
  | Enroll contact_number first_name last_name email =>
      snd (create_user_account users_reply contact_number first_name
                               last_name email w)
  | CheckSlot date time => snd (check_time_slot_availability date time w)
  | FetchSlots => snd (fetch_slots w)
  | Book start_time duration => snd (book_appointment start_time duration w)
  | Reschedule appointment_id new_time =>
      snd (reschedule_user_appointment appointment_id new_time w)
  | Retrieve => snd (retrieve_appointments w)
  | Cancel appointment_id => snd (cancel_user_appointment appointment_id w)
  | Turn role content => snd (add_message role content w)
  | RunTasks => run_tasks w
  | Tick => with_db (with_clock (N.succ (clock (db w))) (db w)) w
  end.

Definition conversation (events : list Event) (w : World) : World :=
  fold_left (fun w e => happen e w) events w.

End Conversation.

(** The call of the clinic when the start-up sequence has handed over:
    tools and chat context as the sequence leaves them, and in the store
    the record of the session, which the sequence deletes only when the
    call ends. *)
Definition call_listening : World :=
  with_db clinic (snd (entrypoint avatar_hangs call_started)).

(** A short conversation: a first turn, then Alice identifies herself; a
    moment passes and the event loop runs. *)
Definition chat_with_alice : list Event :=
  [Turn "user" "Hello"; Identify "555-0100"; Tick; RunTasks].

(** The event is a call of one of the two tools that bind a user. *)
Definition binds (e : Event) : bool :=
  match e with
  | Identify _ | Enroll _ _ _ _ => true
  | _ => false
  end.

(** Every row of the users table has an id, as the keys the store
    generates are. *)
Definition keyed (d : DB) : Prop :=
  forall u, In u (users d) -> User.id u <> "".

(** Tools and chat context agree, and every user in sight has an id. *)
Definition sound (w : World) : Prop :=
  coherent w
  /\ keyed (db w)
  /\ (forall u, _user (tools w) = Some u -> User.id u <> "").

(** ** The avatar stage *)



(** [avatar_ready]: [avatar.start] returned within the timeout. *)
Definition avatar_ready (c : Coro) : bool :=
  match c with
  | Finishes d => if Qlt_le_dec d avatar_timeout then true else false
  | _ => false
  end.





(** * Properties *)

(** ** Running the monad *)

Ltac run_step :=
  unfold bind, ret, raise, self, query, exec, exec_raising, act, set_user,
    set_user_id, try_except in *.

(** [_emit_event] always returns, in a world that differs at most by the
    published packet. *)
Lemma emit_event_run : forall ty msg w,
  _emit_event ty msg w =
  (Ret tt,
   if _room (tools w)
   then with_trace (trace w ++ [Publish (payload ty msg)]) w
   else w).
Proof.
  intros ty msg w. unfold _emit_event. run_step.
  destruct (_room (tools w)); reflexivity.
Qed.

(** ** Tables *)

Lemma filter_none {R} (p : R -> bool) (l : list R) :
  (forall r, In r l -> p r = false) -> filter p l = [].
Proof.
  induction l as [|r l IH]; intros H; cbn; [reflexivity|].
  rewrite (H r (or_introl eq_refl)). apply IH.
  intros r' Hr'. apply H. now right.
Qed.

Lemma length_zero_filter {R} (p : R -> bool) (l : list R) :
  Nat.eqb (length (filter p l)) 0 = true <-> (forall r, In r l -> p r = false).
Proof.
  split.
  - intros H r Hr. destruct (p r) eqn:E; [|reflexivity].
    assert (Hin : In r (filter p l)) by (apply filter_In; auto).
    destruct (filter p l); [destruct Hin | discriminate].
  - intros H. now rewrite (filter_none p l H).
Qed.

(** ** Availability *)

(** C2. [check_availability date time] reads the store and nothing else: it
    is true exactly when no appointment whose [appointment_time] is the
    timestamp [date ++ "T" ++ time ++ ":00"] has status [booked]; the tool
    built on it leaves the store as it was and gives the "available" answer
    exactly in that case. *)
Theorem check_availability_reflects_booked :
  forall (date time : string) (w : World),
    let stamp := date ++ "T" ++ time ++ ":00" in
    let free :=
      forall a, In a (appointments (db w)) ->
                Appointment.appointment_time a = stamp ->
                Appointment.status a <> "booked" in
    (check_availability date time (db w) = true <-> free) /\
    db (snd (check_time_slot_availability date time w)) = db w /\
    (fst (check_time_slot_availability date time w) =
     Ret ("Good news! The time slot on " ++ date ++ " at " ++ time
          ++ " is available.") <-> free).
Proof.
  intros date time w stamp free.
  assert (Hspec : check_availability date time (db w) = true <-> free).
  { unfold check_availability, select. rewrite length_zero_filter.
    subst free stamp. split.
    - intros H a Hin Ht Hs. specialize (H a Hin).
      apply andb_false_iff in H. destruct H as [H|H].
      + apply String.eqb_neq in H. contradiction.
      + apply String.eqb_neq in H. contradiction.
    - intros H a Hin. apply andb_false_iff.
      destruct (String.eqb_spec (Appointment.appointment_time a)
                                (date ++ "T" ++ time ++ ":00")) as [E|E];
        [right | now left].
      apply String.eqb_neq. now apply H. }
  split; [exact Hspec|].
  unfold check_time_slot_availability. run_step.
  rewrite emit_event_run.
  destruct (_room (tools w)); cbn [db with_trace];
    destruct (check_availability date time (db w)) eqn:E; cbn;
    (split; [reflexivity|]).
  - split; intros _; [now apply Hspec | reflexivity].
  - split; intros H; [discriminate H | apply Hspec in H; discriminate H].
  - split; intros _; [now apply Hspec | reflexivity].
  - split; intros H; [discriminate H | apply Hspec in H; discriminate H].
Qed.

(** ** Suggested slots *)

(** C10. [fetch_slots] answers the same fixed text in every world, whatever
    the store holds, and leaves the store as it was. *)
Theorem fetch_slots_constant :
  forall w : World,
    fst (fetch_slots w) =
    Ret "Available slots: Tomorrow at 10:00 AM, Tomorrow at 2:00 PM, and Friday at 11:00 AM."
    /\ db (snd (fetch_slots w)) = db w
    /\ forall w' : World, fst (fetch_slots w') = fst (fetch_slots w).
Proof.
  assert (H : forall w, fst (fetch_slots w) = Ret slots_text
                        /\ db (snd (fetch_slots w)) = db w).
  { intros w. unfold fetch_slots. run_step. rewrite emit_event_run.
    destruct (_room (tools w)); cbn; auto. }
  intros w. destruct (H w) as [H1 H2].
  repeat split; [exact H1 | exact H2 |].
  intros w'. destruct (H w') as [H1' _]. now rewrite H1, H1'.
Qed.

(** ** Calls before identification *)

(** C5. While no user is identified, booking, rescheduling, cancelling and
    retrieval each return their identify-first sentence as an ordinary
    result (nothing is raised) and leave the whole world, the store
    included, exactly as it was. *)
Theorem unidentified_calls_change_nothing :
  forall w : World,
    _user (tools w) = None ->
    (forall start_time duration,
        book_appointment start_time duration w =
        (Ret "Please identify the user first before booking.", w)) /\
    (forall appointment_id new_time,
        reschedule_user_appointment appointment_id new_time w =
        (Ret "Please identify the user first before rescheduling.", w)) /\
    (forall appointment_id,
        cancel_user_appointment appointment_id w =
        (Ret "Please identify the user first before canceling an appointment.", w)) /\
    retrieve_appointments w = (Ret "Please identify the user first.", w).
Proof.
  intros w Hnone.
  unfold book_appointment, reschedule_user_appointment,
    cancel_user_appointment, retrieve_appointments.
  run_step. rewrite Hnone. repeat split.
Qed.

Lemma unidentified_calls_change_nothing_witness :
  _user (tools call_started) = None /\
  book_appointment "2025-03-01T10:00:00" 30 call_started =
  (Ret "Please identify the user first before booking.", call_started).
Proof.
  split; [reflexivity|].
  exact (proj1 (unidentified_calls_change_nothing call_started eq_refl)
               "2025-03-01T10:00:00" 30%Z).
Defined.

(** ** Ownership *)

(** What [any(appt['id'] == appointment_id ...)] over [get_appointments]
    decides: some booked appointment with that id carries the contact
    number resolved for the user. *)
Lemma has_id_get_appointments (aid uid : Id) (d : DB) :
  has_id aid (get_appointments uid d) = true <->
  exists a, In a (appointments d) /\ Appointment.id a = aid /\
            Appointment.status a = "booked" /\
            option_map User.contact_number (get_user_by_id uid d)
            = Some (Appointment.contact_number a).
Proof.
  unfold has_id, get_appointments.
  destruct (get_user_by_id uid d) as [u|]; cbn.
  - rewrite existsb_exists. split.
    + intros [v [Hin Hv]]. apply in_map_iff in Hin.
      destruct Hin as [a [<- Hin]]. unfold select in Hin.
      apply filter_In in Hin. destruct Hin as [Hin Hp].
      apply andb_true_iff in Hp. destruct Hp as [Hc Hs].
      apply String.eqb_eq in Hc, Hs, Hv. cbn in Hv.
      exists a. repeat split; auto. now rewrite Hc.
    + intros [a [Hin [Hid [Hs Hc]]]]. injection Hc as Hc.
      exists (view a). split.
      * apply in_map. unfold select. apply filter_In. split; [exact Hin|].
        apply andb_true_iff. split; apply String.eqb_eq; auto.
      * cbn. now apply String.eqb_eq.
  - split; [discriminate|]. intros [a [_ [_ [_ H]]]]. discriminate.
Qed.

Lemma has_id_foreign (w : World) (user : User.t) (aid : Id) :
  _user (tools w) = Some user ->
  (forall a, In a (appointments (db w)) -> Appointment.id a = aid ->
             resolved_contact w <> Some (Appointment.contact_number a)) ->
  has_id aid (get_appointments (User.id user) (db w)) = false.
Proof.
  intros Hu Hforeign.
  destruct (has_id aid (get_appointments (User.id user) (db w))) eqn:E;
    [|reflexivity].
  apply has_id_get_appointments in E.
  destruct E as [a [Hin [Hid [_ Hc]]]].
  exfalso. apply (Hforeign a Hin Hid).
  unfold resolved_contact. now rewrite Hu.
Qed.

Lemma published_db ty msg w : db (published ty msg w) = db w.
Proof. unfold published. now destruct (_room (tools w)). Qed.

Lemma published_tools ty msg w : tools (published ty msg w) = tools w.
Proof. unfold published. now destruct (_room (tools w)). Qed.

Lemma published_chat ty msg w : chat (published ty msg w) = chat w.
Proof. unfold published. now destruct (_room (tools w)). Qed.

Lemma published_tasks ty msg w : tasks (published ty msg w) = tasks w.
Proof. unfold published. now destruct (_room (tools w)). Qed.

Lemma emit_event_published ty msg w :
  _emit_event ty msg w = (Ret tt, published ty msg w).
Proof. apply emit_event_run. Qed.

(** The two mutating tools, once a user is identified: the ownership check
    decides between the not-found answer and the store update. *)
Lemma reschedule_identified (w : World) (user : User.t) (aid : Id) (nt : string) :
  _user (tools w) = Some user ->
  reschedule_user_appointment aid nt w =
  let w1 := published "tool_call"
              ("Rescheduling appointment " ++ aid ++ " to " ++ nt) w in
  if has_id aid (get_appointments (User.id user) (db w))
  then
    let (res, d) := reschedule_appointment aid nt (db w) in
    match res with
    | Some _ =>
        (Ret ("Your appointment has been rescheduled to " ++ nt ++ "."),
         published "tool_result" "Appointment rescheduled successfully"
                   (with_db d w1))
    | None =>
        (Ret "I'm sorry, there was an error rescheduling your appointment. Please try again.",
         with_db d w1)
    end
  else (Ret reschedule_not_found, w1).
Proof.
  intros Hu. unfold reschedule_user_appointment. run_step.
  rewrite Hu, emit_event_published. cbv beta iota zeta.
  rewrite !published_db.
  destruct (has_id aid (get_appointments (User.id user) (db w)));
    cbn [negb]; cbv beta iota; rewrite ?published_db; [|reflexivity].
  destruct (reschedule_appointment aid nt (db w)) as [[a|] d];
    cbv beta iota; [|reflexivity].
  now rewrite emit_event_published.
Qed.

Lemma cancel_identified (w : World) (user : User.t) (aid : Id) :
  _user (tools w) = Some user ->
  cancel_user_appointment aid w =
  let w1 := published "tool_call" ("Canceling appointment " ++ aid) w in
  if has_id aid (get_appointments (User.id user) (db w))
  then
    let (res, d) := cancel_appointment aid (db w) in
    match res with
    | _ :: _ =>
        (Ret "Your appointment has been cancelled successfully. Is there anything else I can help you with?",
         published "tool_result" "Appointment cancelled successfully"
                   (with_db d w1))
    | [] =>
        (Ret "I'm sorry, there was an error cancelling your appointment. Please try again or contact support.",
         with_db d w1)
    end
  else (Ret cancel_not_found, w1).
Proof.
  intros Hu. unfold cancel_user_appointment. run_step.
  rewrite Hu, emit_event_published. cbv beta iota zeta.
  rewrite !published_db.
  destruct (has_id aid (get_appointments (User.id user) (db w)));
    cbn [negb]; cbv beta iota; rewrite ?published_db; [|reflexivity].
  destruct (cancel_appointment aid (db w)) as [[|a l] d];
    cbv beta iota; [reflexivity|].
  now rewrite emit_event_published.
Qed.

Lemma has_id_without (aid uid : Id) (w : World) :
  has_id aid (get_appointments uid (db (without_appointment aid w))) = false.
Proof.
  destruct (has_id aid (get_appointments uid (db (without_appointment aid w))))
    eqn:E; [|reflexivity].
  apply has_id_get_appointments in E.
  destruct E as [a [Hin [Hid _]]]. cbn in Hin.
  apply filter_In in Hin. destruct Hin as [_ Hne].
  apply negb_true_iff, String.eqb_neq in Hne. contradiction.
Qed.

Lemma published_trace_without ty msg aid w :
  trace (published ty msg (without_appointment aid w))
  = trace (published ty msg w).
Proof.
  unfold published, without_appointment. cbn [tools with_db].
  now destruct (_room (tools w)).
Qed.

(** C1. For an identified caller and an appointment id all of whose rows
    carry a contact number other than the one resolved for the caller,
    reschedule and cancel answer not-found, leave the store as it was, and
    give the same answer and the same published packets as in the world
    where no appointment has that id. *)
Theorem foreign_appointment_is_inert :
  forall (w : World) (user : User.t) (aid : Id) (new_time : string),
    _user (tools w) = Some user ->
    (forall a, In a (appointments (db w)) -> Appointment.id a = aid ->
               resolved_contact w <> Some (Appointment.contact_number a)) ->
    let absent := without_appointment aid w in
    (fst (reschedule_user_appointment aid new_time w) =
     Ret "I couldn't find that appointment. Please check your appointments and try again."
     /\ db (snd (reschedule_user_appointment aid new_time w)) = db w
     /\ fst (reschedule_user_appointment aid new_time w)
        = fst (reschedule_user_appointment aid new_time absent)
     /\ trace (snd (reschedule_user_appointment aid new_time w))
        = trace (snd (reschedule_user_appointment aid new_time absent)))
    /\
    (fst (cancel_user_appointment aid w) =
     Ret "I couldn't find an active appointment with that ID. Please check your appointments and try again."
     /\ db (snd (cancel_user_appointment aid w)) = db w
     /\ fst (cancel_user_appointment aid w)
        = fst (cancel_user_appointment aid absent)
     /\ trace (snd (cancel_user_appointment aid w))
        = trace (snd (cancel_user_appointment aid absent))).
Proof.
  intros w user aid new_time Hu Hforeign absent.
  assert (Hu' : _user (tools absent) = Some user) by exact Hu.
  pose proof (@has_id_foreign w user aid Hu Hforeign) as Hno.
  pose proof (has_id_without aid (User.id user) w) as Hno'.
  fold absent in Hno'.
  split.
  - rewrite (@reschedule_identified w user aid new_time Hu).
    rewrite (@reschedule_identified absent user aid new_time Hu').
    cbv zeta. rewrite Hno, Hno'. cbn [fst snd].
    repeat split; try reflexivity.
    + apply published_db.
    + symmetry. apply published_trace_without.
  - rewrite (@cancel_identified w user aid Hu).
    rewrite (@cancel_identified absent user aid Hu').
    cbv zeta. rewrite Hno, Hno'. cbn [fst snd].
    repeat split; try reflexivity.
    + apply published_db.
    + symmetry. apply published_trace_without.
Qed.

Lemma call_of_alice_foreign :
  forall a, In a (appointments (db call_of_alice)) ->
            Appointment.id a = "11" ->
            resolved_contact call_of_alice
            <> Some (Appointment.contact_number a).
Proof.
  intros a Hin Hid.
  change (appointments (db call_of_alice))
    with [appt_alice; appt_bob; appt_old] in Hin.
  destruct Hin as [<-|[<-|[<-|[]]]]; try discriminate Hid.
  vm_compute. discriminate.
Qed.

Lemma foreign_appointment_is_inert_witness :
  fst (reschedule_user_appointment "11" "2025-03-05T10:00:00" call_of_alice)
  = Ret "I couldn't find that appointment. Please check your appointments and try again."
  /\ db (snd (cancel_user_appointment "11" call_of_alice)) = db call_of_alice.
Proof.
  pose proof (@foreign_appointment_is_inert call_of_alice alice "11"
                "2025-03-05T10:00:00" eq_refl call_of_alice_foreign) as H.
  exact (conj (proj1 (proj1 H)) (proj1 (proj2 (proj2 H)))).
Defined.

(** ** Updates in place *)

Lemma Forall2_map_self {R} (g : R -> R) (l : list R) :
  Forall2 (fun r r' => r' = g r) l (map g l).
Proof. induction l; cbn; constructor; auto. Qed.

Lemma Forall2_same {R} (P : R -> R -> Prop) (l : list R) :
  (forall r, P r r) -> Forall2 P l l.
Proof. intros H. induction l; constructor; auto. Qed.

Lemma filter_map_length {R} (q : R -> bool) (g : R -> R) (l : list R) :
  (forall r, q (g r) = q r) ->
  length (filter q (map g l)) = length (filter q l).
Proof.
  intros H. induction l as [|r l IH]; cbn; [reflexivity|].
  rewrite H. destruct (q r); cbn; now rewrite IH.
Qed.

Lemma reschedule_appointment_store (aid : Id) (nt : string) (d : DB) :
  snd (reschedule_appointment aid nt d)
  = with_appointments (map (reschedule_row aid nt) (appointments d)) d.
Proof. reflexivity. Qed.

Lemma cancel_appointment_store (aid : Id) (d : DB) :
  snd (cancel_appointment aid d)
  = with_appointments (map (cancel_row aid) (appointments d)) d.
Proof. reflexivity. Qed.

(** The store after the two tools, for an identified user: the not-found
    answer leaves it alone, the other answers come with the update. *)
Lemma reschedule_store (w : World) (user : User.t) (aid : Id) (nt : string) :
  _user (tools w) = Some user ->
  db (snd (reschedule_user_appointment aid nt w)) =
  if has_id aid (get_appointments (User.id user) (db w))
  then with_appointments (map (reschedule_row aid nt) (appointments (db w)))
                         (db w)
  else db w.
Proof.
  intros Hu. rewrite (@reschedule_identified w user aid nt Hu). cbv zeta.
  destruct (has_id aid (get_appointments (User.id user) (db w)));
    [|apply published_db].
  rewrite <- reschedule_appointment_store.
  destruct (reschedule_appointment aid nt (db w)) as [[a|] d];
    cbn [fst snd]; rewrite ?published_db; reflexivity.
Qed.

Lemma cancel_store (w : World) (user : User.t) (aid : Id) :
  _user (tools w) = Some user ->
  db (snd (cancel_user_appointment aid w)) =
  if has_id aid (get_appointments (User.id user) (db w))
  then with_appointments (map (cancel_row aid) (appointments (db w))) (db w)
  else db w.
Proof.
  intros Hu. rewrite (@cancel_identified w user aid Hu). cbv zeta.
  destruct (has_id aid (get_appointments (User.id user) (db w)));
    [|apply published_db].
  rewrite <- cancel_appointment_store.
  destruct (cancel_appointment aid (db w)) as [[|a l] d];
    cbn [fst snd]; rewrite ?published_db; reflexivity.
Qed.

Lemma reschedule_success_found (w : World) (user : User.t) (aid : Id)
      (nt : string) :
  _user (tools w) = Some user ->
  fst (reschedule_user_appointment aid nt w)
  = Ret ("Your appointment has been rescheduled to " ++ nt ++ ".") ->
  has_id aid (get_appointments (User.id user) (db w)) = true.
Proof.
  intros Hu Hok. rewrite (@reschedule_identified w user aid nt Hu) in Hok.
  cbv zeta in Hok.
  destruct (has_id aid (get_appointments (User.id user) (db w)));
    [reflexivity|].
  cbn in Hok. discriminate Hok.
Qed.

Lemma reschedule_row_spec (aid : Id) (nt : string) (a : Appointment.t) :
  Appointment.id (reschedule_row aid nt a) = Appointment.id a /\
  Appointment.status (reschedule_row aid nt a) = Appointment.status a /\
  Appointment.contact_number (reschedule_row aid nt a)
  = Appointment.contact_number a /\
  (Appointment.id a = aid -> Appointment.status a = "booked" ->
   Appointment.appointment_time (reschedule_row aid nt a) = nt) /\
  (Appointment.status a <> "booked" -> reschedule_row aid nt a = a) /\
  (Appointment.id a <> aid -> reschedule_row aid nt a = a).
Proof.
  unfold reschedule_row.
  destruct (String.eqb_spec (Appointment.id a) aid) as [Hi|Hi];
    destruct (String.eqb_spec (Appointment.status a) "booked") as [Hs|Hs];
    cbn; repeat split; auto; intros; congruence.
Qed.

Lemma reschedule_table (w : World) (aid : Id) (nt : string) :
  let before := appointments (db w) in
  let after := appointments (db (snd (reschedule_user_appointment aid nt w))) in
  after = before \/ after = map (reschedule_row aid nt) before.
Proof.
  cbv zeta. destruct (_user (tools w)) as [user|] eqn:Hu.
  - rewrite (@reschedule_store w user aid nt Hu).
    destruct (has_id aid (get_appointments (User.id user) (db w)));
      [right | left]; reflexivity.
  - left. unfold reschedule_user_appointment. run_step. now rewrite Hu.
Qed.

Lemma reschedule_success_identified (w : World) (aid : Id) (nt : string) :
  fst (reschedule_user_appointment aid nt w)
  = Ret ("Your appointment has been rescheduled to " ++ nt ++ ".") ->
  exists user, _user (tools w) = Some user.
Proof.
  intros Hok. destruct (_user (tools w)) as [user|] eqn:Hu; [now exists user|].
  unfold reschedule_user_appointment in Hok. run_step. rewrite Hu in Hok.
  cbn in Hok. discriminate Hok.
Qed.

(** C3. Whatever a call of the reschedule tool answers, the appointments
    table keeps its length and the number of rows of every owner; row by
    row, id, status and owner are what they were; and a row that is not
    booked (a cancelled one in particular), or that has another id, is left
    exactly as it was.  When the tool reports success, a booked row with
    the given id exists and belongs to the caller, and every such row now
    has the new time as its [appointment_time]. *)
Theorem reschedule_updates_in_place :
  forall (w : World) (aid : Id) (new_time : string),
    let before := appointments (db w) in
    let after :=
      appointments (db (snd (reschedule_user_appointment aid new_time w))) in
    length after = length before /\
    (forall owner,
        length (filter (fun a => Appointment.contact_number a =? owner) after)
        = length (filter (fun a => Appointment.contact_number a =? owner)
                         before)) /\
    Forall2 (fun a a' =>
               Appointment.id a' = Appointment.id a /\
               Appointment.status a' = Appointment.status a /\
               Appointment.contact_number a' = Appointment.contact_number a /\
               (Appointment.status a = "cancelled" -> a' = a) /\
               (Appointment.status a <> "booked" -> a' = a) /\
               (Appointment.id a <> aid -> a' = a))
            before after /\
    (fst (reschedule_user_appointment aid new_time w)
     = Ret ("Your appointment has been rescheduled to " ++ new_time ++ ".") ->
     Forall2 (fun a a' =>
                Appointment.id a = aid -> Appointment.status a = "booked" ->
                Appointment.appointment_time a' = new_time)
             before after /\
     (exists a, In a before /\ Appointment.id a = aid /\
                Appointment.status a = "booked" /\
                resolved_contact w = Some (Appointment.contact_number a)) /\
     (exists a', In a' after /\ Appointment.id a' = aid /\
                 Appointment.status a' = "booked" /\
                 Appointment.appointment_time a' = new_time)).
Proof.
  intros w aid new_time before after.
  assert (Hframe :
            forall a, let a' := reschedule_row aid new_time a in
              Appointment.id a' = Appointment.id a /\
              Appointment.status a' = Appointment.status a /\
              Appointment.contact_number a' = Appointment.contact_number a /\
              (Appointment.status a = "cancelled" -> a' = a) /\
              (Appointment.status a <> "booked" -> a' = a) /\
              (Appointment.id a <> aid -> a' = a)).
  { intros a.
    destruct (reschedule_row_spec aid new_time a)
      as [H1 [H2 [H3 [_ [H5 H6]]]]].
    cbv zeta. repeat split; auto.
    intros Hcan. apply H5. rewrite Hcan. discriminate. }
  split; [|split; [|split]].
  - destruct (reschedule_table w aid new_time) as [E|E]; fold after in E;
      rewrite E; [reflexivity | apply length_map].
  - intros owner.
    destruct (reschedule_table w aid new_time) as [E|E]; fold after in E;
      rewrite E; [reflexivity|].
    apply filter_map_length. intros r.
    destruct (reschedule_row_spec aid new_time r) as [_ [_ [-> _]]].
    reflexivity.
  - destruct (reschedule_table w aid new_time) as [E|E]; fold after in E;
      rewrite E.
    + apply Forall2_same. intros a. repeat split; auto.
    + apply Forall2_impl
        with (R1 := fun r r' => r' = reschedule_row aid new_time r);
        [|apply Forall2_map_self].
      intros r r' ->. apply Hframe.
  - intros Hok.
    destruct (reschedule_success_identified w aid new_time Hok) as [user Hu].
    pose proof (@reschedule_success_found w user aid new_time Hu Hok) as Hfound.
    assert (Hafter : after = map (reschedule_row aid new_time) before).
    { subst after before. rewrite (@reschedule_store w user aid new_time Hu).
      now rewrite Hfound. }
    apply has_id_get_appointments in Hfound.
    destruct Hfound as [a [Hin [Hid [Hs Hc]]]].
    rewrite Hafter. split; [|split].
    + apply Forall2_impl
        with (R1 := fun r r' => r' = reschedule_row aid new_time r);
        [|apply Forall2_map_self].
      intros r r' ->. apply reschedule_row_spec.
    + exists a. repeat split; auto.
      unfold resolved_contact. now rewrite Hu.
    + exists (reschedule_row aid new_time a).
      destruct (reschedule_row_spec aid new_time a)
        as [H1 [H2 [_ [H4 _]]]].
      repeat split.
      * now apply in_map.
      * now rewrite H1.
      * now rewrite H2.
      * now apply H4.
Qed.

(** On the example: after Alice reschedules her appointment, the row with
    her appointment's id carries the new time. *)
Lemma reschedule_updates_in_place_witness :
  exists a', In a' (appointments
                      (db (snd (reschedule_user_appointment
                                  "10" "2025-03-05T10:00:00" call_of_alice))))
             /\ Appointment.id a' = "10"
             /\ Appointment.status a' = "booked"
             /\ Appointment.appointment_time a' = "2025-03-05T10:00:00".
Proof.
  exact (proj2 (proj2
          (proj2 (proj2 (proj2
             (reschedule_updates_in_place call_of_alice "10"
                "2025-03-05T10:00:00"))) eq_refl))).
Defined.

(** ** Cancelling *)

Lemma cancel_row_spec (aid : Id) (a : Appointment.t) :
  Appointment.id (cancel_row aid a) = Appointment.id a /\
  Appointment.contact_number (cancel_row aid a)
  = Appointment.contact_number a /\
  Appointment.appointment_time (cancel_row aid a)
  = Appointment.appointment_time a /\
  (Appointment.id a = aid -> Appointment.status (cancel_row aid a) = "cancelled") /\
  (Appointment.id a <> aid -> cancel_row aid a = a).
Proof.
  unfold cancel_row.
  destruct (String.eqb_spec (Appointment.id a) aid) as [Hi|Hi];
    cbn; repeat split; auto; intros; congruence.
Qed.

Lemma cancel_tools (w : World) (user : User.t) (aid : Id) :
  _user (tools w) = Some user ->
  tools (snd (cancel_user_appointment aid w)) = tools w.
Proof.
  intros Hu. rewrite (@cancel_identified w user aid Hu). cbv zeta.
  destruct (has_id aid (get_appointments (User.id user) (db w)));
    [|apply published_tools].
  destruct (cancel_appointment aid (db w)) as [[|a l] d]; cbn [fst snd];
    rewrite ?published_tools; cbn [tools with_db];
    apply published_tools.
Qed.

(** A cancel of an id none of whose rows is booked: not found, and the
    store stays as it is. *)
Lemma cancel_inactive (w : World) (user : User.t) (aid : Id) :
  _user (tools w) = Some user ->
  (forall a, In a (appointments (db w)) -> Appointment.id a = aid ->
             Appointment.status a <> "booked") ->
  fst (cancel_user_appointment aid w) = Ret cancel_not_found /\
  db (snd (cancel_user_appointment aid w)) = db w.
Proof.
  intros Hu Hinactive.
  assert (Hno : has_id aid (get_appointments (User.id user) (db w)) = false).
  { destruct (has_id aid (get_appointments (User.id user) (db w))) eqn:E;
      [|reflexivity].
    apply has_id_get_appointments in E.
    destruct E as [a [Hin [Hid [Hs _]]]].
    destruct (Hinactive a Hin Hid Hs). }
  rewrite (@cancel_identified w user aid Hu). cbv zeta. rewrite Hno.
  split; [reflexivity | apply published_db].
Qed.

Lemma cancel_again_inactive (w : World) (user : User.t) (aid : Id) (n : nat) :
  _user (tools w) = Some user ->
  (forall a, In a (appointments (db w)) -> Appointment.id a = aid ->
             Appointment.status a <> "booked") ->
  _user (tools (cancel_again aid n w)) = Some user /\
  db (cancel_again aid n w) = db w.
Proof.
  intros Hu Hinactive. induction n as [|n [IHu IHd]]; [split; [exact Hu | reflexivity]|].
  change (cancel_again aid (S n) w)
    with (snd (cancel_user_appointment aid (cancel_again aid n w))).
  split.
  - rewrite (@cancel_tools _ user aid IHu). exact IHu.
  - rewrite <- IHd. apply (@cancel_inactive _ user aid IHu).
    rewrite IHd. exact Hinactive.
Qed.

(** C4. For an identified caller who owns a booked appointment with the
    given id, the first cancel reports success, keeps every row of the
    table (same length; id, owner and time of each row unchanged), and
    leaves the rows with that id with status [cancelled]; after that, any
    number of further cancels of the same id each report not-found and
    leave the store, and so the status [cancelled], as the first cancel
    left it. *)
Theorem cancel_then_not_found :
  forall (w : World) (user : User.t) (aid : Id) (a : Appointment.t),
    _user (tools w) = Some user ->
    In a (appointments (db w)) ->
    Appointment.id a = aid ->
    Appointment.status a = "booked" ->
    resolved_contact w = Some (Appointment.contact_number a) ->
    let w1 := snd (cancel_user_appointment aid w) in
    fst (cancel_user_appointment aid w)
    = Ret "Your appointment has been cancelled successfully. Is there anything else I can help you with?"
    /\ length (appointments (db w1)) = length (appointments (db w))
    /\ Forall2 (fun r r' =>
                  Appointment.id r' = Appointment.id r /\
                  Appointment.contact_number r' = Appointment.contact_number r /\
                  Appointment.appointment_time r'
                  = Appointment.appointment_time r /\
                  (Appointment.id r = aid -> Appointment.status r' = "cancelled") /\
                  (Appointment.id r <> aid -> r' = r))
               (appointments (db w)) (appointments (db w1))
    /\ (exists a', In a' (appointments (db w1)) /\ Appointment.id a' = aid)
    /\ forall n : nat,
        let wn := cancel_again aid n w1 in
        fst (cancel_user_appointment aid wn)
        = Ret "I couldn't find an active appointment with that ID. Please check your appointments and try again."
        /\ db (snd (cancel_user_appointment aid wn)) = db w1
        /\ forall r, In r (appointments (db (snd (cancel_user_appointment aid wn)))) ->
                     Appointment.id r = aid ->
                     Appointment.status r = "cancelled".
Proof.
  intros w user aid a Hu Hin Hid Hs Hown w1.
  assert (Hfound : has_id aid (get_appointments (User.id user) (db w)) = true).
  { apply has_id_get_appointments. exists a. repeat split; auto.
    unfold resolved_contact in Hown. now rewrite Hu in Hown. }
  assert (Hdb : db w1 = with_appointments
                          (map (cancel_row aid) (appointments (db w))) (db w)).
  { subst w1. rewrite (@cancel_store w user aid Hu). now rewrite Hfound. }
  assert (Hcancelled :
            forall r, In r (appointments (db w1)) -> Appointment.id r = aid ->
                      Appointment.status r = "cancelled").
  { intros r Hr Hrid. rewrite Hdb in Hr. cbn in Hr.
    apply in_map_iff in Hr. destruct Hr as [r0 [<- _]].
    destruct (cancel_row_spec aid r0) as [H1 [_ [_ [H4 _]]]].
    apply H4. now rewrite <- H1. }
  assert (Hu1 : _user (tools w1) = Some user).
  { subst w1. now rewrite (@cancel_tools w user aid Hu). }
  split; [|split; [|split; [|split]]].
  - rewrite (@cancel_identified w user aid Hu). cbv zeta. rewrite Hfound.
    unfold cancel_appointment, update.
    destruct (filter (fun a0 => Appointment.id a0 =? aid) (appointments (db w)))
      as [|x xs] eqn:E; [|reflexivity].
    exfalso.
    assert (Hx : In a (filter (fun a0 => Appointment.id a0 =? aid)
                              (appointments (db w)))).
    { apply filter_In. split; [exact Hin | now apply String.eqb_eq]. }
    rewrite E in Hx. destruct Hx.
  - rewrite Hdb. cbn. apply length_map.
  - rewrite Hdb. cbn.
    apply Forall2_impl with (R1 := fun r r' => r' = cancel_row aid r);
      [|apply Forall2_map_self].
    intros r r' ->. apply cancel_row_spec.
  - exists (cancel_row aid a). rewrite Hdb. cbn. split.
    + now apply in_map.
    + destruct (cancel_row_spec aid a) as [H1 _]. now rewrite H1.
  - intros n wn.
    assert (Hinactive :
              forall r, In r (appointments (db w1)) -> Appointment.id r = aid ->
                        Appointment.status r <> "booked").
    { intros r Hr Hrid. rewrite (Hcancelled r Hr Hrid). discriminate. }
    destruct (@cancel_again_inactive w1 user aid n Hu1 Hinactive)
      as [Hun Hdn].
    fold wn in Hun, Hdn.
    assert (Hinactive_n :
              forall r, In r (appointments (db wn)) -> Appointment.id r = aid ->
                        Appointment.status r <> "booked").
    { rewrite Hdn. exact Hinactive. }
    destruct (@cancel_inactive wn user aid Hun Hinactive_n) as [Hr Hd].
    split; [exact Hr|]. split; [now rewrite Hd|].
    rewrite Hd, Hdn. exact Hcancelled.
Qed.

Lemma cancel_then_not_found_witness :
  fst (cancel_user_appointment "10" call_of_alice)
  = Ret "Your appointment has been cancelled successfully. Is there anything else I can help you with?".
Proof.
  exact (proj1 (@cancel_then_not_found call_of_alice alice "10" appt_alice
                  eq_refl (or_introl eq_refl) eq_refl eq_refl eq_refl)).
Defined.

(** ** Identification and enrollment *)

(** What [identify_user] does to each object of the call. *)
Lemma identify_user_effect (ident : string) (w : World) :
  let w' := snd (identify_user ident w) in
  match get_user_by_contact_or_email ident (db w) with
  | Some user =>
      fst (identify_user ident w)
      = Ret ("User identified: " ++ fmt (User.name user)
             ++ " (ID: " ++ User.id user ++ ").")
      /\ tools w' = mkTools (Some user) (_room (tools w)) (_chat_ctx (tools w))
                            (_session_id (tools w))
      /\ db w' = snd (update_session_user (_session_id (tools w))
                                          (User.id user) (db w))
      /\ chat w' = (if _chat_ctx (tools w) then told (User.id user) (chat w)
                    else chat w)
      /\ tasks w' = tasks w
  | None =>
      fst (identify_user ident w)
      = Ret ("No user found with identifier " ++ ident
             ++ ". The user needs to create an account first.")
      /\ tools w' = tools w /\ db w' = db w /\ chat w' = chat w
      /\ tasks w' = tasks w
  end.
Proof.
  destruct w as [d [u room ctx sid] c ts tr].
  unfold identify_user, tell_chat_ctx, _emit_event. run_step.
  cbn -[append get_user_by_contact_or_email update_session_user fmt].
  destruct room, ctx;
    cbn -[append get_user_by_contact_or_email update_session_user fmt];
    destruct (get_user_by_contact_or_email ident d) as [user|];
    cbn -[append get_user_by_contact_or_email update_session_user fmt];
    try destruct (update_session_user sid (User.id user) d) as [s d'];
    cbn -[append fmt]; repeat split; reflexivity.
Qed.

(** The ids the store generates are not empty. *)
Lemma fresh_id_nonempty (d : DB) : fresh_id d <> "".
Proof.
  unfold fresh_id, NilZero.string_of_uint.
  destruct (N.to_uint (next_id d)); discriminate.
Qed.

Lemma fresh_id_truthy (d : DB) : truthy (Some (fresh_id d)) = true.
Proof.
  unfold truthy. apply negb_true_iff, String.eqb_neq, fresh_id_nonempty.
Qed.

(** What [create_user_account] does to each object of the call, for each
    answer of the store. *)
Lemma create_user_account_effect
      (reply : list User.t -> string -> option string -> option string -> Reply)
      (cn fn ln em : string) (w : World) :
  let r := create_user_account reply cn fn ln em w in
  let w' := snd r in
  let user := enrolled (db w) cn fn ln em in
  match reply (users (db w)) cn (Some (fn ++ " " ++ ln)) (email_column em) with
  | Inserted =>
      fst r = Ret ("Account created successfully! Welcome "
                   ++ (fn ++ " " ++ ln)
                   ++ ". Your information has been securely saved.")
      /\ tools w' = mkTools (Some user) (_room (tools w)) (_chat_ctx (tools w))
                            (_session_id (tools w))
      /\ db w' = bump_id (with_users (users (db w) ++ [user]) (db w))
      /\ chat w' = (if _chat_ctx (tools w) then told (User.id user) (chat w)
                    else chat w)
      /\ tasks w' = tasks w
  | NoData =>
      fst r = Ret "I'm sorry, there was an error creating your account. Please try again."
      /\ tools w' = tools w /\ db w' = db w /\ chat w' = chat w
      /\ tasks w' = tasks w
  | Refused =>
      fst r = Exn "APIError"
      /\ tools w' = tools w /\ db w' = db w /\ chat w' = chat w
      /\ tasks w' = tasks w
  end.
Proof.
  destruct w as [d [u room ctx sid] c ts tr].
  unfold create_user_account, tell_chat_ctx, _emit_event, create_user,
    enrolled, email_column.
  run_step.
  cbn -[append truthy fresh_id].
  destruct room, ctx; cbn -[append truthy fresh_id];
    destruct (reply (users d) cn (Some (fn ++ " " ++ ln))
                    (if truthy (Some em) then Some em else None));
    cbn -[append truthy fresh_id]; repeat split; reflexivity.
Qed.






(** C7, counterexample.  An enrollment with a contact number the users
    table already holds is refused by the table: the call raises, the table
    is what it was and nobody is bound.  An enrollment the store answers
    with no data returns the apology and binds nobody. *)
Lemma enrollment_counterexample :
  (let r := create_user_account unique_contact "555-0100" "Alice" "Smith"
                                "alice@example.org" call_started in
   fst r = Exn "APIError" /\
   users (db (snd r)) = [alice; bob] /\
   _user (tools (snd r)) = None /\
   PersistentChatContext.user_id (chat (snd r)) = None) /\
  (let r := create_user_account silent_store "555-0300" "Carol" "Diaz"
                                "carol@example.org" call_started in
   fst r = Ret "I'm sorry, there was an error creating your account. Please try again." /\
   _user (tools (snd r)) = None /\
   PersistentChatContext.user_id (chat (snd r)) = None) /\
  ~ enrollment_always_creates.
Proof.
  split; [repeat split; reflexivity|].
  split; [repeat split; reflexivity|].
  intros H.
  destruct (H unique_contact call_started "555-0100" "Alice" "Smith"
              "alice@example.org") as [user [Hcreated _]].
  vm_compute in Hcreated. discriminate Hcreated.
Qed.

(** C7, as the code has it.  For every enrollment call that the store
    answers with the inserted row: the users table gains exactly one row,
    whose name is [first_name ++ " " ++ last_name] and whose contact number
    is the given one; [create_user] returns that row; the tool answers with
    the welcome sentence; the row becomes the identified user of the tools;
    and, when the tools hold the chat context, its id becomes the identity
    under which the next turns are logged. *)
Theorem enrollment_creates_and_binds :
  forall (reply : list User.t -> string -> option string -> option string
                  -> Reply)
         (w : World) (cn fn ln em : string),
    reply (users (db w)) cn (Some (fn ++ " " ++ ln)) (email_column em)
    = Inserted ->
    let r := create_user_account reply cn fn ln em w in
    let user := enrolled (db w) cn fn ln em in
    User.name user = Some (fn ++ " " ++ ln)
    /\ User.contact_number user = cn
    /\ create_user reply cn (Some (fn ++ " " ++ ln)) (Some em) (db w)
       = (Ret (Some user), db (snd r))
    /\ users (db (snd r)) = (users (db w) ++ [user])%list
    /\ fst r = Ret ("Account created successfully! Welcome "
                    ++ (fn ++ " " ++ ln)
                    ++ ". Your information has been securely saved.")
    /\ _user (tools (snd r)) = Some user
    /\ (_chat_ctx (tools w) = true ->
        PersistentChatContext.user_id (chat (snd r)) = Some (User.id user)
        /\ forall role content,
            tasks (snd (add_message role content (snd r)))
            = (tasks w ++ [SaveMessage (User.id user) role content])%list).
Proof.
  intros reply w cn fn ln em Hrep r user.
  pose proof (create_user_account_effect reply cn fn ln em w) as H.
  cbv zeta in H. rewrite Hrep in H.
  destruct H as [Hr [Ht [Hd [Hc Hk]]]].
  fold r in Hr, Ht, Hd, Hc, Hk. fold user in Ht, Hd, Hc.
  split; [reflexivity|]. split; [reflexivity|].
  split.
  { rewrite Hd. unfold create_user. fold (email_column em).
    rewrite Hrep. reflexivity. }
  split; [now rewrite Hd|].
  split; [exact Hr|].
  split; [now rewrite Ht|].
  intros Hctx. rewrite Hctx in Hc. split; [now rewrite Hc|].
  intros role content. unfold add_message.
  cbn [chat with_chat super_add_message PersistentChatContext.user_id].
  rewrite Hc. cbn -[truthy fresh_id].
  rewrite fresh_id_truthy. cbn. now rewrite Hk.
Qed.

Lemma enrollment_creates_and_binds_witness :
  _user (tools (snd (create_user_account unique_contact "555-0300" "Carol"
                                          "Diaz" "carol@example.org"
                                          call_started)))
  = Some (User.mk "13" "555-0300" (Some "Carol Diaz")
                  (Some "carol@example.org")).
Proof.
  exact (proj1 (proj2 (proj2 (proj2 (proj2 (proj2
          (@enrollment_creates_and_binds unique_contact call_started
             "555-0300" "Carol" "Diaz" "carol@example.org" eq_refl))))))).
Defined.

(** ** The start-up sequence *)

Lemma precedes_sound (a b : Action -> bool) (l : list Action) :
  precedes_b a b false l = true -> precedes a b l.
Proof.
  assert (H : forall l seen, precedes_b a b seen l = true ->
              forall pre y post, l = (pre ++ y :: post)%list -> b y = true ->
              seen = true \/ exists x, In x pre /\ a x = true).
  { clear l. induction l as [|x l IH]; intros seen Hc pre y post Hl Hy.
    - destruct pre; discriminate Hl.
    - cbn in Hc. apply andb_true_iff in Hc. destruct Hc as [Hx Hrest].
      destruct pre as [|p pre]; cbn in Hl; injection Hl as -> ->.
      + rewrite Hy in Hx. cbn in Hx. now left.
      + destruct (IH _ Hrest pre y post eq_refl Hy) as [Hs|[z [Hz Haz]]].
        * apply orb_true_iff in Hs. destruct Hs as [Hs|Hs]; [now left|].
          right. exists p. split; [now left | exact Hs].
        * right. exists z. split; [now right | exact Haz]. }
  intros Hc pre y post Hl Hy.
  destruct (H l false Hc pre y post Hl Hy) as [Hf|Hex];
    [discriminate | exact Hex].
Qed.

(** Evaluation of the sequence, one collaborator at a time. *)
Ltac ep_eval :=
  cbv beta iota zeta delta
      [with_trace with_db with_chat with_tools with_tasks with_session_memory
       trace db tools chat tasks fst snd messages
       create_session delete_session delete update query get_session
       PersistentChatContext.user_id super_add_message
       PersistentChatContext_init AgentTools_init orb andb negb].

Ltac in_cases H :=
  cbn [In] in H;
  repeat (destruct H as [H|H]; [try discriminate H|]);
  try contradiction.

Ltac solve_in := cbn [In]; repeat (first [left; reflexivity | right]).

Ltac ep_trace :=
  eexists; split;
  [ rewrite <- ?app_assoc; cbn [app];
    first [ reflexivity | symmetry; apply app_nil_r ] | ].

Ltac ep_leaf :=
  ep_trace;
  split; [reflexivity|];
  split; [reflexivity|];
  split; [reflexivity|];
  split; [intros ?q ?H; in_cases H; injection H as <-;
          first [apply Qle_refl | apply Qlt_le_weak; assumption]|];
  split; [apply precedes_sound; vm_compute; reflexivity|];
  split; [apply precedes_sound; vm_compute; reflexivity|];
  split; [apply precedes_sound; vm_compute; reflexivity|];
  split; [apply precedes_sound; vm_compute; reflexivity|];
  split; [intros ?q ?H; in_cases H;
          (split; [solve_in
                  | intros ?;
                    first [congruence
                          | split; [solve_in | split; [solve_in | reflexivity]]]])|];
  intros ?Hok; first [ discriminate Hok | split; reflexivity ].

Ltac ep_stage f s := destruct (f s) eqn:?; ep_eval; [ep_leaf|].

Lemma entrypoint_runs (env : Env) (w : World) :
  exists l : list Action,
    trace (snd (entrypoint env w)) = (trace w ++ l)%list /\
    fst (entrypoint env w) = verdict env /\
    tasks (snd (entrypoint env w)) = tasks w /\
    messages (db (snd (entrypoint env w))) = messages (db w) /\
    (forall q, In (AvatarStart q) l -> (q <= avatar_timeout)%Q) /\
    precedes is_start is_say l /\
    precedes is_avatar_resolution is_say l /\
    precedes is_avatar_wait is_avatar_resolution l /\
    precedes is_start is_avatar_wait l /\
    (forall q, In (AvatarStart q) l ->
       In (Publish (status_payload "avatar" (avatar_status (avatar_start env)))) l
       /\ (raises env SayCall = false ->
           In (Say greeting) l /\ In Listen l
           /\ fst (entrypoint env w) = Ret tt)) /\
    (fst (entrypoint env w) = Ret tt ->
     tools (snd (entrypoint env w))
     = AgentTools_init true true (room_name env) /\
     chat (snd (entrypoint env w))
     = PersistentChatContext.mk [("system", system_instructions env)] None).
Proof.
  destruct env as [rn si pp f pr av]. destruct w as [d t c ts tr].
  unfold verdict, avatar_status, entrypoint, call, probe, broadcast_status,
    wait_for, add_message.
  run_step.
  cbn [raises participant_present avatar_start room_name system_instructions
       probe_raises].
  ep_eval.
  ep_stage f CreateSessionCall.
  ep_stage f ConnectCall.
  destruct pp; ep_eval; [|ep_stage f ParticipantCall].
  all: ep_stage f SttCall.
  all: ep_stage f LlmCall.
  all: ep_stage f TtsCall.
  all: destruct pr; ep_eval.
  all: ep_stage f VadCall.
  all: ep_stage f AgentCall.
  all: ep_stage f StartCall.
  all: ep_stage f AvatarCall.
  all: destruct av as [q|q e|]; ep_eval;
    try destruct (Qlt_le_dec q avatar_timeout); ep_eval;
    rewrite ?String.eqb_refl; ep_eval;
    try destruct (e =? "TimeoutError"); ep_eval.
  all: destruct (f SayCall) eqn:?; ep_eval; ep_leaf.
Qed.







(** ** Logging of chat turns *)

Lemma run_tasks_fold (ts : list Task) (d : DB) :
  messages (fold_left (fun d t => run_task t d) ts d)
  = (messages d ++ map (row_of (clock d)) ts)%list
  /\ clock (fold_left (fun d t => run_task t d) ts d) = clock d.
Proof.
  revert d. induction ts as [|t ts IH]; intros d; cbn [fold_left map].
  - now rewrite app_nil_r.
  - destruct (IH (run_task t d)) as [Hm Hc]. rewrite Hm, Hc.
    destruct t as [uid role content]. cbn. split; [|reflexivity].
    now rewrite <- app_assoc.
Qed.

Lemma run_tasks_messages (w : World) :
  messages (db (run_tasks w))
  = (messages (db w) ++ map (row_of (clock (db w))) (tasks w))%list.
Proof. unfold run_tasks. cbn. apply run_tasks_fold. Qed.

(** [load_messages] replays turns into the context: nothing is written and
    no task is created. *)
Lemma load_messages_writes_nothing (msgs : list (string * string)) (w : World) :
  db (snd (load_messages msgs w)) = db w
  /\ tasks (snd (load_messages msgs w)) = tasks w.
Proof. split; reflexivity. Qed.

(** What [add_message] does to each object of the call. *)
Lemma add_message_effect (role content : string) (w : World) :
  let w' := snd (add_message role content w) in
  fst (add_message role content w) = Ret (role, content)
  /\ db w' = db w
  /\ tools w' = tools w
  /\ PersistentChatContext.items (chat w')
     = (PersistentChatContext.items (chat w) ++ [(role, content)])%list
  /\ PersistentChatContext.user_id (chat w')
     = PersistentChatContext.user_id (chat w)
  /\ tasks w'
     = (tasks w ++ match PersistentChatContext.user_id (chat w) with
                   | Some uid =>
                       if truthy (Some uid)
                       then [SaveMessage uid role content] else []
                   | None => []
                   end)%list.
Proof.
  destruct w as [d t [items [uid|]] ts tr]; unfold add_message;
    cbn -[truthy]; [destruct (truthy (Some uid)); cbn|];
    rewrite ?app_nil_r; repeat split; reflexivity.
Qed.

(** The tools that neither identify nor enroll leave the tools instance
    and the chat context alone. *)
Lemma other_tools_frame (w : World) :
  (forall st du,
      tools (snd (book_appointment st du w)) = tools w
      /\ chat (snd (book_appointment st du w)) = chat w) /\
  (forall aid nt,
      tools (snd (reschedule_user_appointment aid nt w)) = tools w
      /\ chat (snd (reschedule_user_appointment aid nt w)) = chat w) /\
  (forall aid,
      tools (snd (cancel_user_appointment aid w)) = tools w
      /\ chat (snd (cancel_user_appointment aid w)) = chat w) /\
  (tools (snd (retrieve_appointments w)) = tools w
   /\ chat (snd (retrieve_appointments w)) = chat w) /\
  (forall date time,
      tools (snd (check_time_slot_availability date time w)) = tools w
      /\ chat (snd (check_time_slot_availability date time w)) = chat w) /\
  (tools (snd (fetch_slots w)) = tools w
   /\ chat (snd (fetch_slots w)) = chat w).
Proof.
  destruct w as [d [u room ctx sid] c ts tr].
  unfold book_appointment, reschedule_user_appointment,
    cancel_user_appointment, retrieve_appointments,
    check_time_slot_availability, fetch_slots, _emit_event.
  run_step.
  repeat split; intros;
    cbn -[append create_appointment reschedule_appointment cancel_appointment
          get_appointments check_availability has_id str_len join];
    destruct u as [user|]; try reflexivity;
    destruct room;
    cbn -[append create_appointment reschedule_appointment cancel_appointment
          get_appointments check_availability has_id str_len join];
    try reflexivity;
    try (destruct (create_appointment (User.id user) st du None d)
          as [[a|] d']; reflexivity);
    try (destruct (has_id aid (get_appointments (User.id user) d));
         cbn -[append reschedule_appointment cancel_appointment];
         try reflexivity;
         first [ destruct (reschedule_appointment aid nt d) as [[a|] d']
               | destruct (cancel_appointment aid d) as [[|a l] d'] ];
         reflexivity);
    try (destruct (get_appointments (User.id user) d); reflexivity);
    try (destruct (check_availability date time d); reflexivity).
Qed.

(** The agreement between tools and chat context holds when the sequence
    hands over to the conversation, with nobody identified... *)
Lemma coherent_at_start (env : Env) (w : World) :
  fst (entrypoint env w) = Ret tt ->
  coherent (snd (entrypoint env w))
  /\ _user (tools (snd (entrypoint env w))) = None.
Proof.
  intros Hok.
  destruct (entrypoint_runs env w)
    as [l [_ [_ [_ [_ [_ [_ [_ [_ [_ [_ Hend]]]]]]]]]]].
  destruct (Hend Hok) as [Ht Hc]. unfold coherent. rewrite Ht, Hc.
  repeat split.
Qed.

(** ... and every tool and every added turn keeps it. *)
Lemma coherent_preserved
      (reply : list User.t -> string -> option string -> option string -> Reply)
      (w : World) :
  coherent w ->
  (forall ident, coherent (snd (identify_user ident w))) /\
  (forall cn fn ln em,
      coherent (snd (create_user_account reply cn fn ln em w))) /\
  (forall role content, coherent (snd (add_message role content w))) /\
  (forall st du, coherent (snd (book_appointment st du w))) /\
  (forall aid nt, coherent (snd (reschedule_user_appointment aid nt w))) /\
  (forall aid, coherent (snd (cancel_user_appointment aid w))) /\
  coherent (snd (retrieve_appointments w)) /\
  (forall date time, coherent (snd (check_time_slot_availability date time w))) /\
  coherent (snd (fetch_slots w)).
Proof.
  intros [Hctx Hid].
  destruct (other_tools_frame w) as [Hb [Hr [Hc [Hl [Ha Hf]]]]].
  repeat match goal with |- _ /\ _ => split end; intros; unfold coherent.
  - pose proof (identify_user_effect ident w) as H.
    cbv zeta in H.
    destruct (get_user_by_contact_or_email ident (db w)) as [v|];
      destruct H as [_ [Ht [_ [Hc' _]]]]; rewrite Ht, Hc'.
    + rewrite Hctx. split; reflexivity.
    + split; assumption.
  - pose proof (create_user_account_effect reply cn fn ln em w) as H.
    cbv zeta in H.
    destruct (reply (users (db w)) cn (Some (fn ++ " " ++ ln))
                    (email_column em));
      destruct H as [_ [Ht [_ [Hc' _]]]]; rewrite Ht, Hc'.
    + rewrite Hctx. split; reflexivity.
    + split; assumption.
    + split; assumption.
  - destruct (add_message_effect role content w) as [_ [_ [Ht [_ [Hu _]]]]].
    rewrite Ht, Hu. split; assumption.
  - destruct (Hb st du) as [-> ->]. split; assumption.
  - destruct (Hr aid nt) as [-> ->]. split; assumption.
  - destruct (Hc aid) as [-> ->]. split; assumption.
  - destruct Hl as [-> ->]. split; assumption.
  - destruct (Ha date time) as [-> ->]. split; assumption.
  - destruct Hf as [-> ->]. split; assumption.
Qed.

Lemma app_one_neq {A} (l : list A) (x : A) : (l ++ [x])%list <> l.
Proof.
  intros H. apply (f_equal (@length A)) in H.
  rewrite length_app in H. cbn in H. lia.
Qed.

(** ** The clinic at work *)

Example identify_by_email :
  fst (identify_user "bob@example.org" call_started)
  = Ret "User identified: Bob Jones (ID: 2).".
Proof. reflexivity. Qed.

Example alice_lists_her_appointments :
  fst (retrieve_appointments call_of_alice)
  = Ret ("Found 1 active appointment(s):" ++ nl
         ++ "- Appointment on 2025-03-01T10:00:00 - 30 minute appointment (ID: 10)").
Proof. reflexivity. Qed.

Example booked_slot_is_taken :
  check_availability "2025-03-01" "10:00" clinic = false
  /\ check_availability "2025-02-01" "09:00" clinic = true.
Proof. split; reflexivity. Qed.

Example voice_only_start :
  fst (entrypoint avatar_hangs call_started) = Ret tt
  /\ skipn 15 (trace (snd (entrypoint avatar_hangs call_started)))
     = [Sleep 1; Publish (status_payload "avatar" "initializing");
        Load "avatar"; AvatarStart 20;
        Publish (status_payload "avatar" "unavailable");
        Say greeting; Listen].
Proof. split; vm_compute; reflexivity. Qed.

(** * Further properties of the store, the tools and the start-up *)

(** ** Looking rows up *)

Lemma first_row_filter_some {R} (p : R -> bool) (l : list R) (r : R) :
  first_row (filter p l) = Some r ->
  exists l1 l2, l = (l1 ++ r :: l2)%list /\ p r = true
                /\ forall x, In x l1 -> p x = false.
Proof.
  induction l as [|x l IH]; cbn; [discriminate|].
  destruct (p x) eqn:E; cbn.
  - intros H. injection H as ->. exists [], l. repeat split; auto.
    intros y [].
  - intros H. destruct (IH H) as [l1 [l2 [-> [Hp Hl1]]]].
    exists (x :: l1), l2. repeat split; auto.
    intros y [<-|Hy]; auto.
Qed.

Lemma first_row_filter_none {R} (p : R -> bool) (l : list R) :
  first_row (filter p l) = None <-> forall x, In x l -> p x = false.
Proof.
  split.
  - intros H x Hx. destruct (p x) eqn:E; [|reflexivity].
    assert (Hin : In x (filter p l)) by (apply filter_In; auto).
    destruct (filter p l); [destruct Hin | discriminate H].
  - intros H. now rewrite (filter_none p l H).
Qed.

Lemma first_row_filter_first {R} (p : R -> bool) (l1 l2 : list R) (r : R) :
  (forall x, In x l1 -> p x = false) -> p r = true ->
  first_row (filter p (l1 ++ r :: l2)) = Some r.
Proof.
  intros H Hr. rewrite filter_app, (filter_none p l1 H). cbn. now rewrite Hr.
Qed.

(** X1. [get_user_by_contact_or_email] answers with a row of the users
    table that carries the identifier as its contact number or as its
    email; it answers [None] exactly when no row does; and a match by
    contact number wins over a match by email: when some row has the
    identifier as its contact number, the answer is the first such row,
    whatever rows match by email. *)
Theorem lookup_prefers_contact_number :
  forall (identifier : string) (d : DB),
    (forall u, get_user_by_contact_or_email identifier d = Some u ->
               In u (users d) /\
               (User.contact_number u = identifier
                \/ User.email u = Some identifier)) /\
    (get_user_by_contact_or_email identifier d = None <->
     forall u, In u (users d) ->
               User.contact_number u <> identifier
               /\ User.email u <> Some identifier) /\
    (forall u, In u (users d) -> User.contact_number u = identifier ->
               exists v l1 l2,
                 get_user_by_contact_or_email identifier d = Some v
                 /\ User.contact_number v = identifier
                 /\ users d = (l1 ++ v :: l2)%list
                 /\ forall x, In x l1 -> User.contact_number x <> identifier).
Proof.
  intros identifier d. unfold get_user_by_contact_or_email,
    get_user_by_contact, get_user_by_email, select.
  split; [|split].
  - intros u H.
    destruct (first_row (filter (fun u0 => User.contact_number u0 =? identifier)
                                (users d))) as [v|] eqn:E.
    + injection H as <-.
      destruct (first_row_filter_some _ _ E) as [l1 [l2 [Hl [Hp _]]]].
      split; [rewrite Hl; apply in_elt | left; now apply String.eqb_eq].
    + destruct (first_row_filter_some _ _ H) as [l1 [l2 [Hl [Hp _]]]].
      split; [rewrite Hl; apply in_elt|]. right.
      unfold opt_eqb in Hp. destruct (User.email u) as [e|]; [|discriminate].
      apply String.eqb_eq in Hp. now subst.
  - destruct (first_row (filter (fun u0 => User.contact_number u0 =? identifier)
                                (users d))) as [v|] eqn:E.
    + split; [discriminate|]. intros H. exfalso.
      destruct (first_row_filter_some _ _ E) as [l1 [l2 [Hl [Hp _]]]].
      apply String.eqb_eq in Hp.
      destruct (H v) as [Hc _]; [rewrite Hl; apply in_elt | contradiction].
    + rewrite first_row_filter_none in E. rewrite first_row_filter_none.
      split.
      * intros H u Hu. split.
        -- apply String.eqb_neq. now apply E.
        -- specialize (H u Hu). unfold opt_eqb in H.
           destruct (User.email u) as [e|]; [|discriminate].
           apply String.eqb_neq in H. congruence.
      * intros H u Hu. destruct (H u Hu) as [_ He]. unfold opt_eqb.
        destruct (User.email u) as [e|]; [|reflexivity].
        apply String.eqb_neq. congruence.
  - intros u Hu Hc.
    destruct (first_row (filter (fun u0 => User.contact_number u0 =? identifier)
                                (users d))) as [v|] eqn:E.
    + destruct (first_row_filter_some _ _ E) as [l1 [l2 [Hl [Hp Hl1]]]].
      exists v, l1, l2. repeat split; auto.
      * now apply String.eqb_eq.
      * intros x Hx. apply String.eqb_neq. now apply Hl1.
    + rewrite first_row_filter_none in E. specialize (E u Hu).
      apply String.eqb_neq in E. contradiction.
Qed.

(** ** Session records *)

Lemma with_session_memory_same (d : DB) :
  with_session_memory (session_memory d) d = d.
Proof. now destruct d. Qed.

Lemma map_untouched {R} (p : R -> bool) (g : R -> R) (l : list R) :
  (forall r, In r l -> p r = true -> g r = r) ->
  map (fun r => if p r then g r else r) l = l.
Proof.
  induction l as [|r l IH]; intros H; cbn; [reflexivity|].
  rewrite IH by (intros x Hx; apply H; now right).
  destruct (p r) eqn:E; [|reflexivity].
  now rewrite (H r (or_introl eq_refl) E).
Qed.

Lemma filter_map_replace {R} (p : R -> bool) (row : R) (l : list R) :
  p row = true ->
  filter p (map (fun r => if p r then row else r) l)
  = map (fun _ => row) (filter p l).
Proof.
  intros Hrow. induction l as [|r l IH]; cbn; [reflexivity|].
  destruct (p r) eqn:E; cbn.
  - rewrite Hrow. cbn. now rewrite IH.
  - rewrite E. exact IH.
Qed.

Lemma create_session_table (sid : string) (d : DB) :
  session_memory (snd (create_session sid d))
  = if existsb (same_session sid) (session_memory d)
    then map (fun s => if same_session sid s then fresh_session sid d else s)
             (session_memory d)
    else (session_memory d ++ [fresh_session sid d])%list.
Proof. reflexivity. Qed.

Lemma fresh_session_same (sid : string) (d : DB) :
  same_session sid (fresh_session sid d) = true.
Proof. apply String.eqb_refl. Qed.

Lemma create_session_all_fresh (sid : string) (d : DB) (s : SessionRecord.t) :
  In s (session_memory (snd (create_session sid d))) ->
  SessionRecord.session_id s = sid -> s = fresh_session sid d.
Proof.
  intros Hs Hid. rewrite create_session_table in Hs.
  destruct (existsb (same_session sid) (session_memory d)) eqn:E.
  - apply in_map_iff in Hs. destruct Hs as [s0 [Hs0 _]].
    destruct (same_session sid s0) eqn:E0; [now subst|].
    subst s0. unfold same_session in E0. apply String.eqb_neq in E0.
    contradiction.
  - apply in_app_iff in Hs. destruct Hs as [Hs|[<-|[]]]; [|reflexivity].
    exfalso. rewrite <- not_true_iff_false in E. apply E.
    apply existsb_exists. exists s. split; [exact Hs|].
    now apply String.eqb_eq.
Qed.

Lemma create_session_has_fresh (sid : string) (d : DB) :
  In (fresh_session sid d) (session_memory (snd (create_session sid d))).
Proof.
  rewrite create_session_table.
  destruct (existsb (same_session sid) (session_memory d)) eqn:E.
  - apply existsb_exists in E. destruct E as [s [Hs Hsame]].
    apply in_map_iff. exists s. split; [now rewrite Hsame | exact Hs].
  - apply in_app_iff. right. now left.
Qed.

Lemma create_session_found (sid : string) (d : DB) :
  get_session sid (snd (create_session sid d)) = Some (fresh_session sid d).
Proof.
  unfold get_session, select. fold (same_session sid).
  destruct (first_row (filter (same_session sid)
                              (session_memory (snd (create_session sid d)))))
    as [s|] eqn:E.
  - destruct (first_row_filter_some _ _ E) as [l1 [l2 [Hl [Hp _]]]].
    f_equal. apply create_session_all_fresh; [rewrite Hl; apply in_elt|].
    now apply String.eqb_eq.
  - rewrite first_row_filter_none in E.
    pose proof (E _ (create_session_has_fresh sid d)) as H0.
    change (same_session sid (fresh_session sid d) = false) in H0.
    rewrite fresh_session_same in H0. discriminate.
Qed.

Lemma create_session_others (sid : string) (d : DB) (s : SessionRecord.t) :
  SessionRecord.session_id s <> sid ->
  (In s (session_memory (snd (create_session sid d)))
   <-> In s (session_memory d)).
Proof.
  intros Hne. rewrite create_session_table.
  assert (Hs : same_session sid s = false) by now apply String.eqb_neq.
  pose proof (fresh_session_same sid d) as Hrow.
  destruct (existsb (same_session sid) (session_memory d)).
  - rewrite in_map_iff. split.
    + intros [s0 [Hs0 Hin0]]. destruct (same_session sid s0) eqn:E0.
      * rewrite <- Hs0, Hrow in Hs. discriminate.
      * now subst.
    + intros Hin0. exists s. now rewrite Hs.
  - rewrite in_app_iff. split; [|now left].
    intros [H|[<-|[]]]; [exact H|].
    rewrite Hrow in Hs. discriminate.
Qed.

(** X2. [create_session] is an upsert: it answers with a record of the
    given id that has no user, and [get_session] finds that record
    afterwards; every record with the id is that record, so a user bound to
    an older record of the same id is dropped; records of other ids and all
    other tables stay as they were.  A second [create_session] with the
    same id, whenever it comes, adds no record: it puts in the place of the
    record of the id one that is stamped, as started and as last active,
    with the time of the second call -- the same record only when no time
    has passed -- and leaves the records of other ids alone. *)
Theorem create_session_is_upsert :
  forall (session_id : string) (d : DB),
    let d1 := snd (create_session session_id d) in
    let row := fresh_session session_id d in
    fst (create_session session_id d) = Some row
    /\ SessionRecord.user_id row = None
    /\ get_session session_id d1 = Some row
    /\ (forall s, In s (session_memory d1) ->
                  SessionRecord.session_id s = session_id -> s = row)
    /\ (forall s, SessionRecord.session_id s <> session_id ->
                  (In s (session_memory d1) <-> In s (session_memory d)))
    /\ users d1 = users d /\ appointments d1 = appointments d
    /\ messages d1 = messages d
    /\ (forall now : N,
           let d2 := snd (create_session session_id (with_clock now d1)) in
           let row2 := fresh_session session_id (with_clock now d1) in
           get_session session_id d2 = Some row2
           /\ SessionRecord.user_id row2 = None
           /\ SessionRecord.started_at row2 = now
           /\ SessionRecord.last_activity_at row2 = now
           /\ length (session_memory d2) = length (session_memory d1)
           /\ (forall s, SessionRecord.session_id s <> session_id ->
                         (In s (session_memory d2)
                          <-> In s (session_memory d1)))
           /\ (row2 = row <-> now = clock d)).
Proof.
  intros sid d d1 row. subst row d1.
  split; [reflexivity|]. split; [reflexivity|].
  split; [apply create_session_found|].
  split; [intros s; apply create_session_all_fresh|].
  split; [intros s; apply create_session_others|].
  split; [reflexivity|]. split; [reflexivity|]. split; [reflexivity|].
  intros now.
  set (d1 := snd (create_session sid d)).
  cbv zeta.
  split; [apply create_session_found|].
  split; [reflexivity|]. split; [reflexivity|]. split; [reflexivity|].
  split.
  - rewrite create_session_table.
    change (session_memory (with_clock now d1)) with (session_memory d1).
    assert (Hex : existsb (same_session sid) (session_memory d1) = true).
    { apply existsb_exists. exists (fresh_session sid d).
      split; [apply create_session_has_fresh | apply fresh_session_same]. }
    rewrite Hex. apply length_map.
  - split.
    + intros s Hs.
      exact (@create_session_others sid (with_clock now d1) s Hs).
    + unfold fresh_session. cbn. split.
      * intros H. now injection H.
      * now intros ->.
Qed.

Lemma update_session_user_table (sid : string) (uid : Id) (d : DB) :
  update_session_user sid uid d
  = (first_row (map (bind_session uid (clock d))
                    (filter (same_session sid) (session_memory d))),
     with_session_memory
       (map (fun s => if same_session sid s
                      then bind_session uid (clock d) s else s)
            (session_memory d)) d).
Proof. reflexivity. Qed.

Lemma update_session_user_absent (sid : string) (uid : Id) (d : DB) :
  get_session sid d = None -> update_session_user sid uid d = (None, d).
Proof.
  rewrite update_session_user_table. unfold get_session, select.
  fold (same_session sid). intros Hnone.
  rewrite first_row_filter_none in Hnone.
  rewrite (filter_none _ _ Hnone). cbn. f_equal.
  rewrite map_untouched; [apply with_session_memory_same|].
  intros s Hs Hsame. rewrite (Hnone s Hs) in Hsame. discriminate.
Qed.

Lemma update_session_user_present (sid : string) (uid : Id) (d : DB)
      (s : SessionRecord.t) :
  get_session sid d = Some s ->
  fst (update_session_user sid uid d) = Some (bind_session uid (clock d) s)
  /\ get_session sid (snd (update_session_user sid uid d))
     = Some (bind_session uid (clock d) s).
Proof.
  rewrite update_session_user_table. cbn [fst snd].
  unfold get_session, select. fold (same_session sid). intros Hs.
  destruct (first_row_filter_some _ _ Hs) as [l1 [l2 [Hl [Hp Hl1]]]].
  split.
  - rewrite Hl, filter_app, (filter_none _ _ Hl1). cbn. now rewrite Hp.
  - cbn. rewrite Hl, map_app. cbn [map]. rewrite Hp.
    apply first_row_filter_first.
    + intros x Hx. apply in_map_iff in Hx. destruct Hx as [x0 [<- Hx0]].
      now rewrite (Hl1 x0 Hx0), (Hl1 x0 Hx0).
    + exact Hp.
Qed.

Lemma update_session_user_others (sid : string) (uid : Id) (d : DB)
      (s : SessionRecord.t) :
  SessionRecord.session_id s <> sid ->
  (In s (session_memory (snd (update_session_user sid uid d)))
   <-> In s (session_memory d)).
Proof.
  rewrite update_session_user_table. cbn. intros Hne.
  assert (Hs : same_session sid s = false) by now apply String.eqb_neq.
  rewrite in_map_iff. split.
  - intros [s0 [Hs0 Hin0]]. destruct (same_session sid s0) eqn:E0.
    + subst s. unfold same_session in *. cbn in Hs. rewrite E0 in Hs.
      discriminate.
    + now subst.
  - intros Hin0. exists s. now rewrite Hs.
Qed.

(** X3. [update_session_user] on a session id that has no record answers
    [None] and leaves the store as it was (no record is created).  On an
    id that has a record, [get_session] afterwards finds that record with
    the given user and the store's current time as last activity; the
    records of other sessions are not touched. *)
Theorem update_session_user_binds :
  forall (session_id : string) (user_id : Id) (d : DB),
    let d1 := snd (update_session_user session_id user_id d) in
    (get_session session_id d = None ->
     update_session_user session_id user_id d = (None, d)) /\
    (forall s, get_session session_id d = Some s ->
               fst (update_session_user session_id user_id d)
               = Some (bind_session user_id (clock d) s)
               /\ get_session session_id d1
                  = Some (bind_session user_id (clock d) s)
               /\ SessionRecord.user_id (bind_session user_id (clock d) s)
                  = Some user_id
               /\ SessionRecord.last_activity_at
                    (bind_session user_id (clock d) s) = clock d) /\
    (forall s, SessionRecord.session_id s <> session_id ->
               (In s (session_memory d1) <-> In s (session_memory d))) /\
    length (session_memory d1) = length (session_memory d).
Proof.
  intros sid uid d d1.
  split; [|split; [|split]].
  - apply update_session_user_absent.
  - intros s Hs.
    destruct (update_session_user_present sid uid d Hs) as [H1 H2].
    repeat split; assumption.
  - intros s Hne. now apply update_session_user_others.
  - subst d1. rewrite update_session_user_table. cbn. apply length_map.
Qed.

Lemma delete_session_table (sid : string) (d : DB) :
  delete_session sid d
  = (filter (same_session sid) (session_memory d),
     with_session_memory
       (filter (fun r => negb (same_session sid r)) (session_memory d)) d).
Proof. reflexivity. Qed.

Lemma delete_session_gone (sid : string) (d : DB) :
  get_session sid (snd (delete_session sid d)) = None.
Proof.
  unfold get_session, select. apply first_row_filter_none.
  intros s Hs. cbn in Hs. apply filter_In in Hs. destruct Hs as [_ Hs].
  now apply negb_true_iff in Hs.
Qed.

Lemma delete_session_others (sid : string) (d : DB) (s : SessionRecord.t) :
  SessionRecord.session_id s <> sid ->
  (In s (session_memory (snd (delete_session sid d)))
   <-> In s (session_memory d)).
Proof.
  intros Hne. cbn. rewrite filter_In.
  assert (Hs : same_session sid s = false) by now apply String.eqb_neq.
  unfold same_session in Hs. rewrite Hs. cbn. tauto.
Qed.

(** X4. After [delete_session] the session id has no record; what it
    answers are the records that had the id; records of other ids are
    kept; deleting an id that has no record changes nothing; and creating
    a session that did not exist and deleting it again gives the store
    back as it was. *)
Theorem delete_session_removes :
  forall (session_id : string) (d : DB),
    let d1 := snd (delete_session session_id d) in
    get_session session_id d1 = None
    /\ fst (delete_session session_id d)
       = filter (same_session session_id) (session_memory d)
    /\ (forall s, SessionRecord.session_id s <> session_id ->
                  (In s (session_memory d1) <-> In s (session_memory d)))
    /\ (get_session session_id d = None -> delete_session session_id d = ([], d))
    /\ (get_session session_id d = None ->
        snd (delete_session session_id (snd (create_session session_id d)))
        = d).
Proof.
  intros sid d d1.
  assert (Hkeep : forall l : list SessionRecord.t,
             (forall s, In s l -> same_session sid s = false) ->
             filter (fun r => negb (same_session sid r)) l = l).
  { induction l as [|r l IH]; intros H; cbn; [reflexivity|].
    rewrite (H r (or_introl eq_refl)). cbn. f_equal. apply IH.
    intros s Hs. apply H. now right. }
  split; [apply delete_session_gone|].
  split; [reflexivity|].
  split; [intros s; apply delete_session_others|].
  split.
  - intros Hnone. unfold get_session, select in Hnone.
    rewrite first_row_filter_none in Hnone.
    change (forall s, In s (session_memory d) -> same_session sid s = false)
      in Hnone.
    rewrite delete_session_table.
    rewrite (filter_none _ _ Hnone), (Hkeep _ Hnone).
    now rewrite with_session_memory_same.
  - intros Hnone. unfold get_session, select in Hnone.
    rewrite first_row_filter_none in Hnone.
    change (forall s, In s (session_memory d) -> same_session sid s = false)
      in Hnone.
    rewrite delete_session_table. cbn [snd].
    rewrite create_session_table.
    assert (Hex : existsb (same_session sid) (session_memory d) = false).
    { apply not_true_iff_false. intros H. apply existsb_exists in H.
      destruct H as [s [Hs Hsame]]. rewrite (Hnone s Hs) in Hsame.
      discriminate. }
    rewrite Hex, filter_app, (Hkeep _ Hnone). cbn [filter].
    rewrite fresh_session_same. cbn [negb]. rewrite app_nil_r.
    now destruct d.
Qed.

(** ** The appointment statements of [db.py] *)

Lemma with_appointments_same (d : DB) :
  with_appointments (appointments d) d = d.
Proof. now destruct d. Qed.

Lemma reschedule_appointment_table (aid : Id) (nt : string) (d : DB) :
  reschedule_appointment aid nt d
  = (first_row (map (set_time nt)
                    (filter (fun a => (Appointment.id a =? aid)
                                      && (Appointment.status a =? "booked"))
                            (appointments d))),
     with_appointments (map (reschedule_row aid nt) (appointments d)) d).
Proof. reflexivity. Qed.

Lemma cancel_appointment_table (aid : Id) (d : DB) :
  cancel_appointment aid d
  = (map (set_status "cancelled")
         (filter (fun a => Appointment.id a =? aid) (appointments d)),
     with_appointments (map (cancel_row aid) (appointments d)) d).
Proof. reflexivity. Qed.

(** X5. [reschedule_appointment] answers [None] exactly when no booked row
    has the id, and then leaves the store as it was; otherwise it answers
    with a row of the table after the update that has the id, is booked and
    carries the new time.  It does not look at the owner of the row. *)
Theorem reschedule_appointment_result :
  forall (appointment_id : Id) (new_time : string) (d : DB),
    let r := reschedule_appointment appointment_id new_time d in
    (fst r = None <->
     forall a, In a (appointments d) -> Appointment.id a = appointment_id ->
               Appointment.status a <> "booked") /\
    (fst r = None -> snd r = d) /\
    (forall row, fst r = Some row ->
                 Appointment.id row = appointment_id
                 /\ Appointment.status row = "booked"
                 /\ Appointment.appointment_time row = new_time
                 /\ In row (appointments (snd r))).
Proof.
  intros aid nt d r. subst r. rewrite reschedule_appointment_table.
  cbn [fst snd].
  set (p := fun a => (Appointment.id a =? aid)
                     && (Appointment.status a =? "booked")).
  assert (Hp : forall a, p a = false <->
                         (Appointment.id a = aid ->
                          Appointment.status a <> "booked")).
  { intros a. unfold p. rewrite andb_false_iff, !String.eqb_neq.
    destruct (String.eqb_spec (Appointment.id a) aid); tauto. }
  assert (Hnone : first_row (map (set_time nt) (filter p (appointments d)))
                  = None <-> forall a, In a (appointments d) -> p a = false).
  { rewrite <- first_row_filter_none.
    destruct (filter p (appointments d)); cbn; split; congruence. }
  split; [|split].
  - rewrite Hnone. split; intros H a Ha; [now apply Hp, H | apply Hp; auto].
  - intros H. rewrite Hnone in H.
    replace (map (reschedule_row aid nt) (appointments d))
      with (appointments d); [apply with_appointments_same|].
    symmetry. apply map_untouched with (p := p) (g := set_time nt).
    intros a Ha Hpa. rewrite (H a Ha) in Hpa. discriminate.
  - intros row Hrow.
    destruct (filter p (appointments d)) as [|a l] eqn:E; [discriminate|].
    cbn in Hrow. injection Hrow as <-.
    assert (Ha : In a (appointments d) /\ p a = true).
    { apply filter_In. rewrite E. now left. }
    destruct Ha as [Hin Hpa]. unfold p in Hpa.
    apply andb_true_iff in Hpa. destruct Hpa as [Hid Hst].
    apply String.eqb_eq in Hid, Hst.
    repeat split; auto. cbn.
    apply in_map_iff. exists a. split; [|exact Hin].
    unfold reschedule_row. rewrite Hid, Hst, String.eqb_refl. reflexivity.
Qed.

(** X6. [cancel_appointment] answers with no row exactly when no row has
    the id, and then leaves the store as it was; every row it answers with
    has the id and status [cancelled]; it looks neither at the owner nor at
    the status of the row, so an already cancelled row is answered again;
    and a second call leaves the store as the first one left it. *)
Theorem cancel_appointment_result :
  forall (appointment_id : Id) (d : DB),
    let r := cancel_appointment appointment_id d in
    (fst r = [] <->
     forall a, In a (appointments d) -> Appointment.id a <> appointment_id) /\
    (fst r = [] -> snd r = d) /\
    Forall (fun row => Appointment.id row = appointment_id
                       /\ Appointment.status row = "cancelled") (fst r) /\
    length (fst r)
    = length (filter (fun a => Appointment.id a =? appointment_id)
                     (appointments d)) /\
    snd (cancel_appointment appointment_id (snd r)) = snd r /\
    length (fst (cancel_appointment appointment_id (snd r))) = length (fst r).
Proof.
  intros aid d r. subst r. rewrite cancel_appointment_table. cbn [fst snd].
  set (p := fun a => Appointment.id a =? aid).
  assert (Hnone : map (set_status "cancelled") (filter p (appointments d)) = []
                  <-> forall a, In a (appointments d) -> p a = false).
  { rewrite <- first_row_filter_none.
    destruct (filter p (appointments d)); cbn; split; congruence. }
  split; [|split; [|split; [|split; [|split]]]].
  - rewrite Hnone. unfold p. split; intros H a Ha.
    + apply String.eqb_neq. now apply H.
    + apply String.eqb_neq. now apply H.
  - intros H. rewrite Hnone in H.
    replace (map (cancel_row aid) (appointments d)) with (appointments d);
      [apply with_appointments_same|].
    symmetry. apply map_untouched with (p := p) (g := set_status "cancelled").
    intros a Ha Hpa. rewrite (H a Ha) in Hpa. discriminate.
  - apply Forall_forall. intros row Hrow. apply in_map_iff in Hrow.
    destruct Hrow as [a [<- Ha]]. apply filter_In in Ha.
    destruct Ha as [_ Hpa]. unfold p in Hpa. apply String.eqb_eq in Hpa.
    split; [exact Hpa | reflexivity].
  - apply length_map.
  - rewrite cancel_appointment_table. cbn [snd].
    unfold with_appointments. cbn. f_equal.
    rewrite map_map. apply map_ext. intros a. unfold cancel_row.
    destruct (Appointment.id a =? aid) eqn:E; cbn; rewrite E; reflexivity.
  - rewrite cancel_appointment_table.
    cbn [fst snd appointments with_appointments].
    rewrite !length_map. apply filter_map_length. intros a. unfold p.
    destruct (cancel_row_spec aid a) as [-> _]. reflexivity.
Qed.

(** ** Booking *)

Lemma book_identified (w : World) (user : User.t) (st : string) (du : Z) :
  _user (tools w) = Some user ->
  book_appointment st du w =
  let w1 := published "tool_call" ("Booking appointment at " ++ st) w in
  match get_user_by_id (User.id user) (db w) with
  | Some row =>
      (Ret ("Appointment booked successfully for " ++ st ++ "."),
       published "tool_result" "Appointment booked successfully"
         (with_db (bump_id (with_appointments
                              (appointments (db w)
                               ++ [booked_row (db w) row st du]) (db w)))
                  w1))
  | None => (Ret "Failed to book appointment.", w1)
  end.
Proof.
  destruct w as [d [u room ctx sid] c ts tr]. cbn [tools _user].
  intros ->.
  unfold book_appointment, create_appointment, _emit_event, published,
    booked_row.
  run_step.
  cbn -[append get_user_by_id str_int fresh_id].
  destruct room; cbn -[append get_user_by_id str_int fresh_id];
    destruct (get_user_by_id (User.id user) d) as [row|];
    cbn -[append str_int fresh_id]; reflexivity.
Qed.

Lemma book_found (w : World) (user row : User.t) (st : string) (du : Z) :
  _user (tools w) = Some user ->
  get_user_by_id (User.id user) (db w) = Some row ->
  fst (book_appointment st du w)
  = Ret ("Appointment booked successfully for " ++ st ++ ".")
  /\ db (snd (book_appointment st du w))
     = bump_id (with_appointments
                  (appointments (db w) ++ [booked_row (db w) row st du])
                  (db w))
  /\ tools (snd (book_appointment st du w)) = tools w.
Proof.
  intros Hu Hrow.
  rewrite (@book_identified w user st du Hu). cbv zeta. rewrite Hrow.
  cbn [fst snd]. rewrite published_db, published_tools. cbn.
  rewrite published_tools. repeat split; reflexivity.
Qed.

(** X7. For an identified user whose row is in the users table,
    [book_appointment] always succeeds -- it never looks whether the time
    is free: it appends one row to the appointments table, booked, at the
    given time, owned by the contact number of the user's row in the store,
    with the text "<duration> minute appointment", and leaves every older
    row and every other table as it was. *)
Theorem booking_appends_one_row :
  forall (w : World) (user row : User.t) (start_time : string) (duration : Z),
    _user (tools w) = Some user ->
    get_user_by_id (User.id user) (db w) = Some row ->
    let r := book_appointment start_time duration w in
    let new := booked_row (db w) row start_time duration in
    fst r = Ret ("Appointment booked successfully for " ++ start_time ++ ".")
    /\ appointments (db (snd r)) = (appointments (db w) ++ [new])%list
    /\ Appointment.status new = "booked"
    /\ Appointment.appointment_time new = start_time
    /\ Appointment.contact_number new = User.contact_number row
    /\ Appointment.details new
       = Some (str_int duration ++ " minute appointment")
    /\ users (db (snd r)) = users (db w)
    /\ session_memory (db (snd r)) = session_memory (db w)
    /\ messages (db (snd r)) = messages (db w)
    /\ tools (snd r) = tools w.
Proof.
  intros w user row st du Hu Hrow r new. subst r new.
  destruct (@book_found w user row st du Hu Hrow) as [Hr [Hd Ht]].
  rewrite Hr, Hd, Ht. repeat split; reflexivity.
Qed.

Lemma booking_appends_one_row_witness :
  appointments (db (snd (book_appointment "2025-03-01T10:00:00" 30
                                          call_of_alice)))
  = [appt_alice; appt_bob; appt_old;
     Appointment.mk "13" "555-0100" "2025-03-01T10:00:00"
                    (Some "30 minute appointment") "booked" 0].
Proof.
  exact (proj1 (proj2 (@booking_appends_one_row call_of_alice alice alice
                         "2025-03-01T10:00:00" 30%Z eq_refl eq_refl))).
Defined.

Lemma check_availability_count (date time : string) (d : DB) :
  check_availability date time d
  = Nat.eqb (length (filter (booked_at (slot date time)) (appointments d))) 0.
Proof. reflexivity. Qed.

(** X8. After a booking at the time [date ++ "T" ++ time ++ ":00"] the
    slot is reported taken; and a second booking at the same time succeeds
    all the same, after which two more booked rows than before occupy the
    slot. *)
Theorem double_booking_is_possible :
  forall (w : World) (user row : User.t) (date time : string) (duration : Z),
    _user (tools w) = Some user ->
    get_user_by_id (User.id user) (db w) = Some row ->
    let w1 := snd (book_appointment (slot date time) duration w) in
    let r2 := book_appointment (slot date time) duration w1 in
    check_availability date time (db w1) = false
    /\ fst r2 = Ret ("Appointment booked successfully for "
                     ++ slot date time ++ ".")
    /\ length (filter (booked_at (slot date time))
                      (appointments (db (snd r2))))
       = S (S (length (filter (booked_at (slot date time))
                              (appointments (db w))))).
Proof.
  intros w user row date time du Hu Hrow w1 r2.
  destruct (@book_found w user row (slot date time) du Hu Hrow)
    as [_ [Hd Ht]].
  fold w1 in Hd, Ht.
  assert (Ha : appointments (db w1)
               = (appointments (db w)
                  ++ [booked_row (db w) row (slot date time) du])%list)
    by now rewrite Hd.
  assert (Hu1 : _user (tools w1) = Some user) by now rewrite Ht.
  assert (Hrow1 : get_user_by_id (User.id user) (db w1) = Some row).
  { unfold get_user_by_id in *. now rewrite Hd. }
  destruct (@book_found w1 user row (slot date time) du Hu1 Hrow1)
    as [Hr2 [Hd2 _]].
  fold r2 in Hr2, Hd2.
  assert (Ha2 : appointments (db (snd r2))
                = (appointments (db w1)
                   ++ [booked_row (db w1) row (slot date time) du])%list)
    by now rewrite Hd2.
  assert (Hnew : forall d, booked_at (slot date time)
                                     (booked_row d row (slot date time) du)
                           = true).
  { intros d. unfold booked_at, booked_row. cbn.
    now rewrite !String.eqb_refl. }
  split; [|split].
  - rewrite check_availability_count, Ha, filter_app. cbn [filter].
    rewrite Hnew, length_app. cbn. now rewrite Nat.add_comm.
  - exact Hr2.
  - rewrite Ha2, Ha, !filter_app. cbn [filter]. rewrite !Hnew.
    rewrite !length_app. cbn. lia.
Qed.

Lemma double_booking_is_possible_witness :
  check_availability "2025-03-05" "09:00"
    (db (snd (book_appointment (slot "2025-03-05" "09:00") 30 call_of_alice)))
  = false.
Proof.
  exact (proj1 (@double_booking_is_possible call_of_alice alice alice
                  "2025-03-05" "09:00" 30%Z eq_refl eq_refl)).
Defined.

Lemma get_appointments_found (uid : Id) (row : User.t) (d : DB) :
  get_user_by_id uid d = Some row ->
  get_appointments uid d
  = map view (filter (fun a => (Appointment.contact_number a
                                =? User.contact_number row)
                               && (Appointment.status a =? "booked"))
                     (appointments d)).
Proof. intros H. unfold get_appointments, select. now rewrite H. Qed.

(** X9. After a successful booking the new appointment is among the
    caller's active appointments: [get_appointments] answers what it
    answered before followed by the new row, and the id the store gave the
    row passes the ownership test of reschedule and cancel. *)
Theorem booking_is_listed :
  forall (w : World) (user row : User.t) (start_time : string) (duration : Z),
    _user (tools w) = Some user ->
    get_user_by_id (User.id user) (db w) = Some row ->
    let w1 := snd (book_appointment start_time duration w) in
    get_appointments (User.id user) (db w1)
    = (get_appointments (User.id user) (db w)
       ++ [view (booked_row (db w) row start_time duration)])%list
    /\ has_id (fresh_id (db w)) (get_appointments (User.id user) (db w1))
       = true.
Proof.
  intros w user row st du Hu Hrow w1.
  destruct (@book_found w user row st du Hu Hrow) as [_ [Hd _]].
  fold w1 in Hd.
  assert (Hrow1 : get_user_by_id (User.id user) (db w1) = Some row).
  { unfold get_user_by_id in *. now rewrite Hd. }
  assert (Hlist : get_appointments (User.id user) (db w1)
                  = (get_appointments (User.id user) (db w)
                     ++ [view (booked_row (db w) row st du)])%list).
  { rewrite (get_appointments_found _ _ Hrow1),
      (get_appointments_found _ _ Hrow), Hd.
    cbn [appointments bump_id with_appointments].
    rewrite filter_app, map_app. cbn [filter booked_row
      Appointment.contact_number Appointment.status].
    now rewrite !String.eqb_refl. }
  split; [exact Hlist|].
  rewrite Hlist. unfold has_id. rewrite existsb_app. cbn.
  rewrite String.eqb_refl. cbn. apply orb_true_r.
Qed.

Lemma booking_is_listed_witness :
  has_id "13" (get_appointments "1"
                 (db (snd (book_appointment "2025-03-05T09:00:00" 30
                                            call_of_alice))))
  = true.
Proof.
  exact (proj2 (@booking_is_listed call_of_alice alice alice
                  "2025-03-05T09:00:00" 30%Z eq_refl eq_refl)).
Defined.

(** A call whose identified user has no row in the users table any more. *)
Lemma get_appointments_orphan (uid : Id) (d : DB) :
  get_user_by_id uid d = None -> get_appointments uid d = [].
Proof. intros H. unfold get_appointments. now rewrite H. Qed.

(** X10. When the row of the identified user is no longer in the users
    table, booking answers "Failed to book appointment.", retrieval finds
    no active appointment, and reschedule and cancel answer not-found for
    every id; none of them changes the store. *)
Theorem orphaned_identity_is_powerless :
  forall (w : World) (user : User.t),
    _user (tools w) = Some user ->
    get_user_by_id (User.id user) (db w) = None ->
    (forall start_time duration,
        fst (book_appointment start_time duration w)
        = Ret "Failed to book appointment."
        /\ db (snd (book_appointment start_time duration w)) = db w) /\
    (fst (retrieve_appointments w) = Ret "No active appointments found."
     /\ db (snd (retrieve_appointments w)) = db w) /\
    (forall appointment_id new_time,
        fst (reschedule_user_appointment appointment_id new_time w)
        = Ret "I couldn't find that appointment. Please check your appointments and try again."
        /\ db (snd (reschedule_user_appointment appointment_id new_time w))
           = db w) /\
    (forall appointment_id,
        fst (cancel_user_appointment appointment_id w)
        = Ret "I couldn't find an active appointment with that ID. Please check your appointments and try again."
        /\ db (snd (cancel_user_appointment appointment_id w)) = db w).
Proof.
  intros w user Hu Hgone.
  pose proof (get_appointments_orphan _ _ Hgone) as Hnone.
  split; [|split; [|split]].
  - intros st du. rewrite (@book_identified w user st du Hu). cbv zeta.
    rewrite Hgone. split; [reflexivity | apply published_db].
  - unfold retrieve_appointments. run_step. rewrite Hu.
    rewrite emit_event_published. cbv beta iota zeta.
    rewrite published_db, Hnone. split; [reflexivity | apply published_db].
  - intros aid nt. rewrite (@reschedule_identified w user aid nt Hu).
    cbv zeta. rewrite Hnone. split; [reflexivity | apply published_db].
  - intros aid. rewrite (@cancel_identified w user aid Hu).
    cbv zeta. rewrite Hnone. split; [reflexivity | apply published_db].
Qed.

Lemma orphaned_identity_is_powerless_witness :
  fst (book_appointment "2025-03-05T09:00:00" 30 call_of_ghost)
  = Ret "Failed to book appointment.".
Proof.
  exact (proj1 (proj1 (@orphaned_identity_is_powerless call_of_ghost
                         (User.mk "9" "555-0900" (Some "Gone") None)
                         eq_refl eq_refl)
                      "2025-03-05T09:00:00" 30%Z)).
Defined.

(** ** Retrieval *)

Lemma retrieve_identified (w : World) (user : User.t) :
  _user (tools w) = Some user ->
  fst (retrieve_appointments w)
  = match get_appointments (User.id user) (db w) with
    | [] => Ret "No active appointments found."
    | _ :: _ =>
        Ret ("Found " ++ str_len (get_appointments (User.id user) (db w))
             ++ " active appointment(s):" ++ nl
             ++ join nl (map describe
                             (get_appointments (User.id user) (db w))))
    end
  /\ db (snd (retrieve_appointments w)) = db w.
Proof.
  intros Hu. unfold retrieve_appointments. run_step. rewrite Hu.
  rewrite emit_event_published. cbv beta iota zeta. rewrite published_db.
  destruct (get_appointments (User.id user) (db w)) as [|v l];
    [split; [reflexivity | apply published_db]|].
  rewrite emit_event_published. cbn [fst snd].
  rewrite !published_db. split; reflexivity.
Qed.

Lemma get_appointments_insert (uid : Id) (d : DB) (l1 l2 : list Appointment.t)
      (a : Appointment.t) :
  appointments d = (l1 ++ l2)%list ->
  (option_map User.contact_number (get_user_by_id uid d)
   <> Some (Appointment.contact_number a)
   \/ Appointment.status a <> "booked") ->
  get_appointments uid (with_appointments (l1 ++ a :: l2) d)
  = get_appointments uid d.
Proof.
  intros Hl Hforeign. unfold get_appointments, select.
  change (get_user_by_id uid (with_appointments (l1 ++ a :: l2) d))
    with (get_user_by_id uid d).
  destruct (get_user_by_id uid d) as [row|]; [|reflexivity].
  cbn [appointments with_appointments]. rewrite Hl, !filter_app.
  cbn [filter].
  replace ((Appointment.contact_number a =? User.contact_number row)
           && (Appointment.status a =? "booked")) with false; [reflexivity|].
  symmetry. apply andb_false_iff.
  destruct Hforeign as [H|H].
  - left. apply String.eqb_neq. intros E. apply H. cbn. now rewrite E.
  - right. now apply String.eqb_neq.
Qed.

(** X11. For an identified caller, retrieval answers "No active appointments
    found." exactly when no booked row carries the contact number resolved
    for the caller; its answer does not change when a row that is not
    booked, or that carries another contact number, is put anywhere into
    the appointments table; and it leaves the store as it was. *)
Theorem retrieval_shows_own_active_only :
  forall (w : World) (user : User.t),
    _user (tools w) = Some user ->
    (fst (retrieve_appointments w) = Ret "No active appointments found."
     <-> forall a, In a (appointments (db w)) ->
                   Appointment.status a = "booked" ->
                   resolved_contact w <> Some (Appointment.contact_number a))
    /\ (forall l1 l2 a,
           appointments (db w) = (l1 ++ l2)%list ->
           (resolved_contact w <> Some (Appointment.contact_number a)
            \/ Appointment.status a <> "booked") ->
           fst (retrieve_appointments
                  (with_db (with_appointments (l1 ++ a :: l2) (db w)) w))
           = fst (retrieve_appointments w))
    /\ db (snd (retrieve_appointments w)) = db w.
Proof.
  intros w user Hu.
  destruct (retrieve_identified w Hu) as [Hr Hd].
  assert (Hres : resolved_contact w
                 = option_map User.contact_number
                              (get_user_by_id (User.id user) (db w))).
  { unfold resolved_contact. now rewrite Hu. }
  split; [|split; [|exact Hd]].
  - rewrite Hr, Hres. split.
    + intros Hnone a Hin Hs Hc.
      assert (Hid : has_id (Appointment.id a)
                      (get_appointments (User.id user) (db w)) = true).
      { apply has_id_get_appointments. exists a. repeat split; auto. }
      destruct (get_appointments (User.id user) (db w)); [discriminate Hid|].
      cbn in Hnone. discriminate Hnone.
    + intros Hall.
      destruct (get_appointments (User.id user) (db w)) as [|v l] eqn:E;
        [reflexivity|].
      exfalso.
      assert (Hid : has_id (v_id v) (get_appointments (User.id user) (db w))
                    = true).
      { rewrite E. cbn. now rewrite String.eqb_refl. }
      apply has_id_get_appointments in Hid.
      destruct Hid as [a [Hin [_ [Hs Hc]]]]. exact (Hall a Hin Hs Hc).
  - intros l1 l2 a Hl Hforeign.
    set (w2 := with_db (with_appointments (l1 ++ a :: l2) (db w)) w).
    assert (Hu2 : _user (tools w2) = Some user) by exact Hu.
    destruct (retrieve_identified w2 Hu2) as [Hr2 _].
    rewrite Hr2, Hr. subst w2. cbn [db with_db].
    rewrite (get_appointments_insert (User.id user) (db w) l1 l2 a Hl);
      [reflexivity|].
    now rewrite <- Hres.
Qed.

Lemma retrieval_shows_own_active_only_witness :
  fst (retrieve_appointments
         (with_db (with_appointments
                     ([appt_alice; appt_bob; appt_old] ++ appt_bob :: [])
                     (db call_of_alice)) call_of_alice))
  = fst (retrieve_appointments call_of_alice).
Proof.
  refine (proj1 (proj2 (@retrieval_shows_own_active_only call_of_alice alice
                          eq_refl))
                [appt_alice; appt_bob; appt_old] [] appt_bob eq_refl _).
  left. vm_compute. discriminate.
Defined.

(** ** Identification *)

(** X12. [identify_user] never creates or changes a user, an appointment or
    a message, and never touches the record of another session.  When the
    identifier matches nobody, store and tools stay as they were.  When it
    matches a user and the session has a record, [get_session] afterwards
    finds that record tagged with the user's id; when the session has no
    record, none is created, and the user is identified all the same. *)
Theorem identification_tags_the_session :
  forall (identifier : string) (w : World),
    let w' := snd (identify_user identifier w) in
    let sid := _session_id (tools w) in
    users (db w') = users (db w)
    /\ appointments (db w') = appointments (db w)
    /\ messages (db w') = messages (db w)
    /\ (forall s, SessionRecord.session_id s <> sid ->
                  (In s (session_memory (db w'))
                   <-> In s (session_memory (db w))))
    /\ (get_user_by_contact_or_email identifier (db w) = None ->
        db w' = db w /\ tools w' = tools w)
    /\ (forall user s,
           get_user_by_contact_or_email identifier (db w) = Some user ->
           get_session sid (db w) = Some s ->
           get_session sid (db w')
           = Some (bind_session (User.id user) (clock (db w)) s))
    /\ (forall user,
           get_user_by_contact_or_email identifier (db w) = Some user ->
           get_session sid (db w) = None ->
           db w' = db w /\ _user (tools w') = Some user).
Proof.
  intros ident w w' sid. subst w' sid.
  pose proof (identify_user_effect ident w) as H. cbv zeta in H.
  destruct (get_user_by_contact_or_email ident (db w)) as [user|].
  - destruct H as [_ [Ht [Hd _]]]. rewrite Hd, Ht.
    split; [reflexivity|]. split; [reflexivity|]. split; [reflexivity|].
    split; [intros s Hne; now apply update_session_user_others|].
    split; [discriminate|]. split.
    + intros u s Hu Hs. injection Hu as <-.
      now apply update_session_user_present.
    + intros u Hu Hs. injection Hu as <-.
      rewrite (update_session_user_absent _ _ _ Hs). split; reflexivity.
  - destruct H as [_ [Ht [Hd _]]]. rewrite Hd, Ht.
    repeat split; try reflexivity; try discriminate; auto.
Qed.

(** ** Enrollment, then identification *)

(** X13. After an enrollment the store accepted: if no older row had the
    contact number, looking the number up finds the new user; if an older
    row had it, the look-up keeps answering the oldest such row, not the
    new one.  If no older row has the id the store gave the new row, the
    contact number resolved for the caller is the enrolled one. *)
Theorem enrollment_then_lookup :
  forall (reply : list User.t -> string -> option string -> option string
                  -> Reply)
         (w : World) (cn fn ln em : string),
    reply (users (db w)) cn (Some (fn ++ " " ++ ln)) (email_column em)
    = Inserted ->
    let w' := snd (create_user_account reply cn fn ln em w) in
    let user := enrolled (db w) cn fn ln em in
    ((forall u, In u (users (db w)) -> User.contact_number u <> cn) ->
     get_user_by_contact_or_email cn (db w') = Some user)
    /\ (forall old l1 l2,
           users (db w) = (l1 ++ old :: l2)%list ->
           User.contact_number old = cn ->
           (forall x, In x l1 -> User.contact_number x <> cn) ->
           get_user_by_contact_or_email cn (db w') = Some old)
    /\ ((forall u, In u (users (db w)) -> User.id u <> fresh_id (db w)) ->
        resolved_contact w' = Some cn).
Proof.
  intros reply w cn fn ln em Hrep w' user.
  pose proof (create_user_account_effect reply cn fn ln em w) as H.
  cbv zeta in H. rewrite Hrep in H. destruct H as [_ [Ht [Hd _]]].
  fold w' in Ht, Hd. fold user in Ht, Hd.
  assert (Hus : users (db w') = (users (db w) ++ [user])%list)
    by now rewrite Hd.
  split; [|split].
  - intros Hnew.
    unfold get_user_by_contact_or_email, get_user_by_contact, select.
    rewrite Hus, filter_app.
    rewrite (filter_none (fun u => User.contact_number u =? cn)
                         (users (db w))).
    + cbn. now rewrite String.eqb_refl.
    + intros u Hu. apply String.eqb_neq. now apply Hnew.
  - intros old l1 l2 Hl Hold Hl1.
    unfold get_user_by_contact_or_email, get_user_by_contact, select.
    rewrite Hus, Hl, <- app_assoc. cbn [app].
    rewrite (first_row_filter_first
               (fun u => User.contact_number u =? cn) l1 (l2 ++ [user]) old).
    + reflexivity.
    + intros x Hx. apply String.eqb_neq. now apply Hl1.
    + now apply String.eqb_eq.
  - intros Hfresh. unfold resolved_contact. rewrite Ht. cbn [_user].
    unfold get_user_by_id, select. rewrite Hus, filter_app.
    rewrite (filter_none (fun u => User.id u =? User.id user) (users (db w))).
    + cbn. now rewrite String.eqb_refl.
    + intros u Hu. apply String.eqb_neq. now apply Hfresh.
Qed.

Lemma enrollment_then_lookup_witness :
  get_user_by_contact_or_email "555-0300"
    (db (snd (create_user_account unique_contact "555-0300" "Carol" "Diaz"
                                  "carol@example.org" call_started)))
  = Some (User.mk "13" "555-0300" (Some "Carol Diaz")
                  (Some "carol@example.org")).
Proof.
  refine (proj1 (@enrollment_then_lookup unique_contact call_started
                   "555-0300" "Carol" "Diaz" "carol@example.org" eq_refl) _).
  intros u [<-|[<-|[]]]; discriminate.
Defined.

(** ** Slots after cancel and reschedule *)

(** X14. When the caller cancels a booked appointment of theirs that sits
    at the time [date ++ "T" ++ time ++ ":00"], and no booked row with
    another id sits at that time, the slot is reported available
    afterwards, and the id no longer passes the ownership test. *)
Theorem cancel_frees_the_slot :
  forall (w : World) (user : User.t) (aid : Id) (a : Appointment.t)
         (date time : string),
    _user (tools w) = Some user ->
    In a (appointments (db w)) ->
    Appointment.id a = aid ->
    Appointment.status a = "booked" ->
    resolved_contact w = Some (Appointment.contact_number a) ->
    (forall b, In b (appointments (db w)) ->
               booked_at (slot date time) b = true -> Appointment.id b = aid) ->
    let w1 := snd (cancel_user_appointment aid w) in
    check_availability date time (db w1) = true
    /\ has_id aid (get_appointments (User.id user) (db w1)) = false.
Proof.
  intros w user aid a date time Hu Hin Hid Hs Hown Honly w1.
  assert (Hfound : has_id aid (get_appointments (User.id user) (db w)) = true).
  { apply has_id_get_appointments. exists a. repeat split; auto.
    unfold resolved_contact in Hown. now rewrite Hu in Hown. }
  assert (Hdb : db w1 = with_appointments
                          (map (cancel_row aid) (appointments (db w))) (db w)).
  { subst w1. rewrite (@cancel_store w user aid Hu). now rewrite Hfound. }
  split.
  - rewrite check_availability_count, Hdb. cbn [appointments with_appointments].
    rewrite filter_none; [reflexivity|].
    intros r Hr. apply in_map_iff in Hr. destruct Hr as [b [<- Hb]].
    destruct (cancel_row_spec aid b) as [_ [_ [_ [Hc Hsame]]]].
    destruct (String.eqb_spec (Appointment.id b) aid) as [E|E].
    + unfold booked_at. rewrite (Hc E). cbn. apply andb_false_r.
    + rewrite (Hsame E).
      destruct (booked_at (slot date time) b) eqn:Eb; [|reflexivity].
      destruct (E (Honly b Hb Eb)).
  - destruct (has_id aid (get_appointments (User.id user) (db w1))) eqn:E;
      [|reflexivity].
    apply has_id_get_appointments in E.
    destruct E as [r [Hr [Hrid [Hrs _]]]].
    rewrite Hdb in Hr. cbn in Hr. apply in_map_iff in Hr.
    destruct Hr as [b [<- Hb]].
    destruct (cancel_row_spec aid b) as [Hi [_ [_ [Hc _]]]].
    rewrite Hi in Hrid. rewrite (Hc Hrid) in Hrs. discriminate.
Qed.

Lemma cancel_frees_the_slot_witness :
  check_availability "2025-03-01" "10:00"
    (db (snd (cancel_user_appointment "10" call_of_alice))) = true.
Proof.
  refine (proj1 (@cancel_frees_the_slot call_of_alice alice "10" appt_alice
                   "2025-03-01" "10:00" eq_refl (or_introl eq_refl)
                   eq_refl eq_refl eq_refl _)).
  intros b [<-|[<-|[<-|[]]]] Hb; try reflexivity; discriminate Hb.
Defined.

(** X15. A successful reschedule to the time [date ++ "T" ++ time ++ ":00"]
    leaves that slot reported taken -- whether or not it was free before:
    the tool does not look.  The slot the appointment came from is reported
    available afterwards, provided it is another slot and no booked row
    with another id sits in it. *)
Theorem reschedule_moves_the_booking :
  forall (w : World) (aid : Id) (date time : string),
    fst (reschedule_user_appointment aid (slot date time) w)
    = Ret ("Your appointment has been rescheduled to " ++ slot date time
           ++ ".") ->
    let w1 := snd (reschedule_user_appointment aid (slot date time) w) in
    check_availability date time (db w1) = false
    /\ forall old_date old_time,
        slot old_date old_time <> slot date time ->
        (forall b, In b (appointments (db w)) ->
                   booked_at (slot old_date old_time) b = true ->
                   Appointment.id b = aid) ->
        check_availability old_date old_time (db w1) = true.
Proof.
  intros w aid date time Hok w1.
  destruct (reschedule_success_identified w aid (slot date time) Hok)
    as [user Hu].
  pose proof (@reschedule_success_found w user aid (slot date time) Hu Hok)
    as Hfound.
  assert (Hdb : db w1 = with_appointments
                          (map (reschedule_row aid (slot date time))
                               (appointments (db w))) (db w)).
  { subst w1. rewrite (@reschedule_store w user aid (slot date time) Hu).
    now rewrite Hfound. }
  apply has_id_get_appointments in Hfound.
  destruct Hfound as [a [Hin [Hid [Hs _]]]].
  split.
  - rewrite check_availability_count, Hdb. cbn [appointments with_appointments].
    destruct (filter (booked_at (slot date time))
                     (map (reschedule_row aid (slot date time))
                          (appointments (db w)))) as [|x l] eqn:E;
      [|reflexivity].
    exfalso.
    assert (Hx : In (reschedule_row aid (slot date time) a)
                    (filter (booked_at (slot date time))
                            (map (reschedule_row aid (slot date time))
                                 (appointments (db w))))).
    { apply filter_In. split; [now apply in_map|].
      destruct (reschedule_row_spec aid (slot date time) a)
        as [_ [H2 [_ [H4 _]]]].
      unfold booked_at. rewrite (H4 Hid Hs), H2, Hs.
      now rewrite !String.eqb_refl. }
    rewrite E in Hx. destruct Hx.
  - intros od ot Hne Honly.
    rewrite check_availability_count, Hdb. cbn [appointments with_appointments].
    rewrite filter_none; [reflexivity|].
    intros r Hr. apply in_map_iff in Hr. destruct Hr as [b [<- Hb]].
    destruct (reschedule_row_spec aid (slot date time) b)
      as [_ [H2 [_ [H4 [H5 H6]]]]].
    destruct (String.eqb_spec (Appointment.id b) aid) as [Ei|Ei].
    + destruct (String.eqb_spec (Appointment.status b) "booked") as [Es|Es].
      * unfold booked_at. rewrite (H4 Ei Es).
        apply andb_false_iff. left. apply String.eqb_neq. congruence.
      * rewrite (H5 Es). unfold booked_at. apply andb_false_iff. right.
        now apply String.eqb_neq.
    + rewrite (H6 Ei).
      destruct (booked_at (slot od ot) b) eqn:Eb; [|reflexivity].
      destruct (Ei (Honly b Hb Eb)).
Qed.

Lemma reschedule_moves_the_booking_witness :
  check_availability "2025-03-02" "09:00"
    (db (snd (reschedule_user_appointment "10" (slot "2025-03-02" "09:00")
                                          call_of_alice)))
  = false.
Proof.
  exact (proj1 (@reschedule_moves_the_booking call_of_alice "10"
                  "2025-03-02" "09:00" eq_refl)).
Defined.

(** ** Packets *)

Ltac packets :=
  unfold only_published; cbn [trace tools _room];
  eexists; split;
  [ rewrite <- ?app_assoc; cbn [app];
    first [ reflexivity | symmetry; apply app_nil_r ]
  | split; [reflexivity|]; split; [cbn; lia|];
    first [ reflexivity | discriminate ] ].

(** X16. Every tool only ever adds published packets to what the call has
    done: at most two per invocation (the announcement and the result),
    and none when the tools were created without a room. *)
Theorem tools_only_publish :
  forall (reply : list User.t -> string -> option string -> option string
                  -> Reply)
         (w : World),
    (forall ident, only_published w (snd (identify_user ident w))) /\
    (forall cn fn ln em,
        only_published w (snd (create_user_account reply cn fn ln em w))) /\
    (forall date time,
        only_published w (snd (check_time_slot_availability date time w))) /\
    only_published w (snd (fetch_slots w)) /\
    (forall st du, only_published w (snd (book_appointment st du w))) /\
    (forall aid nt,
        only_published w (snd (reschedule_user_appointment aid nt w))) /\
    only_published w (snd (retrieve_appointments w)) /\
    (forall aid, only_published w (snd (cancel_user_appointment aid w))).
Proof.
  intros reply w. destruct w as [d [u room ctx sid] c ts tr].
  repeat match goal with |- _ /\ _ => split end; intros.
  - unfold identify_user, tell_chat_ctx, _emit_event. run_step.
    cbn -[append get_user_by_contact_or_email update_session_user fmt].
    destruct room, ctx;
      cbn -[append get_user_by_contact_or_email update_session_user fmt];
      destruct (get_user_by_contact_or_email ident d) as [user|];
      cbn -[append get_user_by_contact_or_email update_session_user fmt];
      try destruct (update_session_user sid (User.id user) d) as [s d'];
      cbn -[append fmt]; packets.
  - unfold create_user_account, tell_chat_ctx, _emit_event, create_user.
    run_step. cbn -[append truthy fresh_id].
    destruct room, ctx; cbn -[append truthy fresh_id];
      destruct (reply (users d) cn (Some (fn ++ " " ++ ln))
                      (if truthy (Some em) then Some em else None));
      cbn -[append truthy fresh_id]; packets.
  - unfold check_time_slot_availability, _emit_event. run_step.
    cbn -[append check_availability].
    destruct room; cbn -[append check_availability];
      destruct (check_availability date time d); cbn -[append]; packets.
  - unfold fetch_slots, _emit_event. run_step.
    destruct room; cbn -[append]; packets.
  - unfold book_appointment, _emit_event. run_step.
    cbn -[append create_appointment].
    destruct u as [user|]; [|packets].
    destruct room; cbn -[append create_appointment];
      destruct (create_appointment (User.id user) st du None d) as [[a|] d'];
      cbn -[append]; packets.
  - unfold reschedule_user_appointment, _emit_event. run_step.
    cbn -[append reschedule_appointment get_appointments has_id].
    destruct u as [user|]; [|packets].
    destruct room;
      cbn -[append reschedule_appointment get_appointments has_id];
      destruct (has_id aid (get_appointments (User.id user) d));
      cbn -[append reschedule_appointment]; try packets;
      destruct (reschedule_appointment aid nt d) as [[a|] d'];
      cbn -[append]; packets.
  - unfold retrieve_appointments, _emit_event. run_step.
    cbn -[append get_appointments str_len join].
    destruct u as [user|]; [|packets].
    destruct room; cbn -[append get_appointments str_len join];
      destruct (get_appointments (User.id user) d);
      cbn -[append str_len join]; packets.
  - unfold cancel_user_appointment, _emit_event. run_step.
    cbn -[append cancel_appointment get_appointments has_id].
    destruct u as [user|]; [|packets].
    destruct room;
      cbn -[append cancel_appointment get_appointments has_id];
      destruct (has_id aid (get_appointments (User.id user) d));
      cbn -[append cancel_appointment]; try packets;
      destruct (cancel_appointment aid d) as [[|a l] d'];
      cbn -[append]; packets.
Qed.

(** ** More on the start-up sequence *)

Ltac ep_leaf2 :=
  ep_trace;
  split; [reflexivity|];
  split; [vm_compute; reflexivity|];
  split; [vm_compute;
          let H := fresh in
          intros H; first [discriminate H | split; reflexivity]|];
  split; [vm_compute; reflexivity|];
  vm_compute; reflexivity.

Ltac ep_stage2 f s := destruct (f s) eqn:?; ep_eval; [ep_leaf2|].

Lemma entrypoint_stages (env : Env) (w : World) :
  exists l : list Action,
    trace (snd (entrypoint env w)) = (trace w ++ l)%list /\
    db (snd (entrypoint env w)) = store_after env (db w) /\
    forallb (fun ab => precedes_b (fst ab) (snd ab) false l) stage_order
    = true /\
    (existsb (status "database" "initializing") l = true ->
     existsb (status "database" (database_status env)) l = true
     /\ existsb (status "database"
                        (if probe_raises env then "ready" else "error")) l
        = false) /\
    length (filter is_avatar_resolution l)
    = (if existsb is_avatar_wait l then 1 else 0)%nat /\
    (length (filter is_say l) <=? 1)%nat = true.
Proof.
  destruct env as [rn si pp f pr av]. destruct w as [d t c ts tr].
  unfold store_after, verdict, database_status, entrypoint, call, probe,
    broadcast_status, wait_for, add_message.
  run_step.
  cbn [raises participant_present avatar_start room_name system_instructions
       probe_raises].
  ep_eval.
  ep_stage2 f CreateSessionCall.
  ep_stage2 f ConnectCall.
  destruct pp; ep_eval; [|ep_stage2 f ParticipantCall].
  all: ep_stage2 f SttCall.
  all: ep_stage2 f LlmCall.
  all: ep_stage2 f TtsCall.
  all: destruct pr; ep_eval.
  all: ep_stage2 f VadCall.
  all: ep_stage2 f AgentCall.
  all: ep_stage2 f StartCall.
  all: ep_stage2 f AvatarCall.
  all: destruct av as [q|q e|]; ep_eval;
    try destruct (Qlt_le_dec q avatar_timeout); ep_eval;
    rewrite ?String.eqb_refl; ep_eval;
    try destruct (e =? "TimeoutError"); ep_eval.
  all: destruct (f SayCall) eqn:?; ep_eval; ep_leaf2.
Qed.

Lemma entrypoint_verdict (env : Env) (w : World) :
  fst (entrypoint env w) = verdict env.
Proof.
  destruct (entrypoint_runs env w) as [l [_ [H _]]]. exact H.
Qed.

Lemma entrypoint_store (env : Env) (w : World) :
  db (snd (entrypoint env w)) = store_after env (db w).
Proof.
  destruct (entrypoint_stages env w) as [l [_ [H _]]]. exact H.
Qed.

Lemma status_broadcast (component st : string) (l : list Action) :
  existsb (status component st) l = true
  <-> In (Publish (status_payload component st)) l.
Proof.
  rewrite existsb_exists. split.
  - intros [a [Ha Hs]]. destruct a; try discriminate Hs.
    cbn in Hs. apply String.eqb_eq in Hs. now subst.
  - intros H. exists (Publish (status_payload component st)).
    split; [exact H|]. cbn. apply String.eqb_refl.
Qed.

(** X17. A run of [entrypoint] that completes leaves no record of its
    session in the store: the record created at the start is deleted in the
    [finally] of the final wait.  Records of other sessions and the other
    tables are as they were before the run. *)
Theorem completed_run_deletes_its_session :
  forall (env : Env) (w : World),
    fst (entrypoint env w) = Ret tt ->
    let d' := db (snd (entrypoint env w)) in
    get_session (room_name env) d' = None
    /\ (forall s, SessionRecord.session_id s <> room_name env ->
                  (In s (session_memory d') <-> In s (session_memory (db w))))
    /\ users d' = users (db w)
    /\ appointments d' = appointments (db w)
    /\ messages d' = messages (db w).
Proof.
  intros env w Hok d'. subst d'.
  rewrite entrypoint_verdict in Hok.
  rewrite entrypoint_store. unfold store_after. rewrite Hok.
  split; [apply delete_session_gone|].
  split; [|split; [reflexivity|split; reflexivity]].
  intros s Hs.
  rewrite (@delete_session_others (room_name env) _ s Hs).
  apply create_session_others. exact Hs.
Qed.

Lemma completed_run_deletes_its_session_witness :
  fst (entrypoint avatar_hangs call_started) = Ret tt
  /\ get_session "session-abc" (db (snd (entrypoint avatar_hangs call_started)))
     = None.
Proof.
  split; [vm_compute; reflexivity|].
  exact (proj1 (@completed_run_deletes_its_session avatar_hangs call_started
                  eq_refl)).
Defined.

(** X18. A run of [entrypoint] that fails after [create_session] has
    returned leaves the session's record in the store, with no user: the
    only [delete_session] is in the [finally] of the final wait, which such
    a run never reaches.  The other tables are as they were. *)
Theorem failed_run_keeps_its_session :
  forall (env : Env) (w : World) (e : string),
    raises env CreateSessionCall = false ->
    fst (entrypoint env w) = Exn e ->
    let d' := db (snd (entrypoint env w)) in
    get_session (room_name env) d' = Some (fresh_session (room_name env) (db w))
    /\ SessionRecord.user_id (fresh_session (room_name env) (db w)) = None
    /\ users d' = users (db w)
    /\ appointments d' = appointments (db w)
    /\ messages d' = messages (db w).
Proof.
  intros env w e Hcreate Hfail d'. subst d'.
  rewrite entrypoint_verdict in Hfail.
  rewrite entrypoint_store. unfold store_after. rewrite Hfail, Hcreate.
  split; [apply create_session_found|].
  split; [reflexivity|]. split; [reflexivity|]. split; reflexivity.
Qed.

Lemma failed_run_keeps_its_session_witness :
  fst (entrypoint stt_fails call_started) = Exn "Exception"
  /\ get_session "session-xyz" (db (snd (entrypoint stt_fails call_started)))
     = Some (fresh_session "session-xyz" clinic).
Proof.
  split; [vm_compute; reflexivity|].
  exact (proj1 (@failed_run_keeps_its_session stt_fails call_started
                  "Exception" eq_refl eq_refl)).
Defined.

(** X19. The order of a run of [entrypoint], whatever the surroundings do:
    each component's [ready] (or [error]) broadcast comes after its
    [initializing]; the components come in the order stt, llm, tts,
    database; the session starts after the store check has been announced;
    the avatar stage is announced after the session start, waited for after
    the announcement and resolved after the wait; the greeting comes after
    the avatar stage has resolved. *)
Theorem startup_follows_stage_order :
  forall (env : Env) (w : World),
    exists l : list Action,
      trace (snd (entrypoint env w)) = (trace w ++ l)%list
      /\ Forall (fun ab => precedes (fst ab) (snd ab) l) stage_order.
Proof.
  intros env w.
  destruct (entrypoint_stages env w) as [l [Ht [_ [Ho _]]]].
  exists l. split; [exact Ht|].
  apply Forall_forall. intros ab Hab.
  apply precedes_sound.
  rewrite forallb_forall in Ho. exact (Ho ab Hab).
Qed.

(** X20. The store check of the start-up sequence is not fatal and decides
    nothing but its own status: whether [get_session] raises or not, the
    run ends the same way; and once the check has been announced, the
    [database] status that follows is [error] when it raised and [ready]
    when it did not, never the other one. *)
Theorem store_check_is_not_fatal :
  forall (env : Env) (w : World),
    (forall fails : bool,
        fst (entrypoint (with_probe fails env) w) = fst (entrypoint env w))
    /\ exists l : list Action,
        trace (snd (entrypoint env w)) = (trace w ++ l)%list
        /\ (In (Publish (status_payload "database" "initializing")) l ->
            In (Publish (status_payload "database" (database_status env))) l
            /\ ~ In (Publish (status_payload "database"
                                (if probe_raises env then "ready" else "error")))
                    l).
Proof.
  intros env w. split.
  - intros fails. now rewrite !entrypoint_verdict.
  - destruct (entrypoint_stages env w) as [l [Ht [_ [_ [Hp _]]]]].
    exists l. split; [exact Ht|].
    intros Hin. apply status_broadcast in Hin.
    destruct (Hp Hin) as [Hyes Hno]. split.
    + now apply status_broadcast.
    + intros H. apply status_broadcast in H. rewrite H in Hno.
      discriminate.
Qed.

(** X21. In a run of [entrypoint] the avatar stage resolves exactly once
    when [avatar.start] is waited for, with one of the broadcasts [ready],
    [unavailable] or [error], and not at all otherwise; and the greeting is
    said at most once. *)
Theorem avatar_resolves_once :
  forall (env : Env) (w : World),
    exists l : list Action,
      trace (snd (entrypoint env w)) = (trace w ++ l)%list
      /\ length (filter is_avatar_resolution l)
         = (if existsb is_avatar_wait l then 1 else 0)%nat
      /\ (length (filter is_say l) <= 1)%nat.
Proof.
  intros env w.
  destruct (entrypoint_stages env w) as [l [Ht [_ [_ [_ [Ha Hs]]]]]].
  exists l. split; [exact Ht|]. split; [exact Ha|].
  now apply Nat.leb_le.
Qed.

(** ** The helpers that only format *)

Lemma contains_char_app (c : ascii) (a b : string) :
  contains_char c (a ++ b) = contains_char c a || contains_char c b.
Proof.
  induction a as [|x a IH]; cbn; [reflexivity|].
  now rewrite IH, orb_assoc.
Qed.

Lemma replace_char_removes (old : ascii) (new s : string) :
  contains_char old new = false ->
  contains_char old (replace_char old new s) = false.
Proof.
  intros Hnew. induction s as [|x s IH]; cbn; [reflexivity|].
  destruct (Ascii.eqb x old) eqn:E.
  - now rewrite contains_char_app, Hnew, IH.
  - cbn. now rewrite E, IH.
Qed.

Lemma replace_char_keeps_absent (c old : ascii) (new s : string) :
  contains_char c new = false ->
  contains_char c s = false ->
  contains_char c (replace_char old new s) = false.
Proof.
  intros Hnew. induction s as [|x s IH]; cbn; [reflexivity|].
  intros H. apply orb_false_iff in H. destruct H as [Hx Hs].
  destruct (Ascii.eqb x old).
  - now rewrite contains_char_app, Hnew, IH.
  - cbn. now rewrite Hx, IH.
Qed.

Lemma replace_char_absent (old : ascii) (new s : string) :
  contains_char old s = false -> replace_char old new s = s.
Proof.
  induction s as [|x s IH]; cbn; [reflexivity|].
  intros H. apply orb_false_iff in H. destruct H as [Hx Hs].
  now rewrite Hx, IH.
Qed.

Lemma formatted_number_clean (c : ascii) (s : string) :
  In c ["-"; "("; ")"]%char -> contains_char c (formatted_number s) = false.
Proof.
  unfold formatted_number.
  intros [<-|[<-|[<-|[]]]].
  - apply replace_char_keeps_absent; [reflexivity|].
    apply replace_char_keeps_absent; [reflexivity|].
    now apply replace_char_removes.
  - apply replace_char_keeps_absent; [reflexivity|].
    now apply replace_char_removes.
  - now apply replace_char_removes.
Qed.

(** X22. [verify_mobile_number] never fails, needs no identified user and
    changes nothing.  The number it reads back contains no hyphen and no
    parenthesis; a number that has none of them is read back as given; and
    formatting a formatted number changes nothing more. *)
Theorem mobile_number_is_read_back_clean :
  forall (mobile_number : string) (w : World),
    let formatted := formatted_number mobile_number in
    verify_mobile_number mobile_number w
    = (Ret ("I heard your mobile number as: " ++ formatted
            ++ ". Is that correct?"), w)
    /\ (forall c, In c ["-"; "("; ")"]%char ->
                  contains_char c formatted = false)
    /\ ((forall c, In c ["-"; "("; ")"]%char ->
                   contains_char c mobile_number = false) ->
        formatted = mobile_number)
    /\ formatted_number formatted = formatted.
Proof.
  intros mn w formatted. subst formatted.
  assert (Hid : forall s,
             (forall c, In c ["-"; "("; ")"]%char -> contains_char c s = false) ->
             formatted_number s = s).
  { intros s H. unfold formatted_number.
    rewrite (@replace_char_absent "-" " " s) by (apply H; cbn; tauto).
    rewrite (@replace_char_absent "(" "" s) by (apply H; cbn; tauto).
    apply replace_char_absent. apply H. cbn. tauto. }
  split; [reflexivity|].
  split; [intros c; apply formatted_number_clean|].
  split; [apply Hid|].
  apply Hid. intros c. apply formatted_number_clean.
Qed.

Lemma split_once_joins (sep : ascii) (s : string) :
  contains_char sep s = true ->
  s = fst (split_once sep s) ++ String sep (snd (split_once sep s))
  /\ contains_char sep (fst (split_once sep s)) = false.
Proof.
  induction s as [|x s IH]; cbn; [discriminate|].
  destruct (Ascii.eqb x sep) eqn:E.
  - intros _. apply Ascii.eqb_eq in E. subst x. now split.
  - cbn. intros H. destruct (IH H) as [IH1 IH2].
    destruct (split_once sep s) as [before after]. cbn in *.
    rewrite E. split; [now f_equal | exact IH2].
Qed.

(** X23. [verify_email_spelling] on an ASCII text never fails and changes
    nothing.  Without an [@] it answers that the format seems incorrect.
    With one, it splits the address at its FIRST [@]: the user name it
    reads back has no [@], the domain is all the rest (further [@]s
    included), and user name, [@] and domain put together are the
    address. *)
Theorem email_is_split_at_first_at :
  forall (email : string) (w : World),
    is_ascii email = true ->
    (contains_char "@" email = false ->
     verify_email_spelling email w
     = (Ret "The email format seems incorrect. Please provide it again with the @ symbol.", w))
    /\ (contains_char "@" email = true ->
        exists username domain : string,
          email = username ++ "@" ++ domain
          /\ contains_char "@" username = false
          /\ verify_email_spelling email w
             = (Ret ("Let me confirm your email: " ++ username ++ " at "
                     ++ domain ++ ". That's " ++ join " " (chars username)
                     ++ " AT " ++ join " " (chars domain)
                     ++ ". Is that correct?"), w)).
Proof.
  intros email w _. unfold verify_email_spelling. split.
  - intros H. now rewrite H.
  - intros H. rewrite H.
    destruct (@split_once_joins "@" email H) as [Hj Hn].
    destruct (split_once "@" email) as [username domain]. cbn in Hj, Hn.
    exists username, domain. split; [exact Hj|]. split; [exact Hn|].
    reflexivity.
Qed.

Lemma email_is_split_at_first_at_witness :
  exists username domain : string,
    "ann@clinic@example.org" = username ++ "@" ++ domain
    /\ contains_char "@" username = false
    /\ verify_email_spelling "ann@clinic@example.org" call_started
       = (Ret ("Let me confirm your email: " ++ username ++ " at "
               ++ domain ++ ". That's " ++ join " " (chars username)
               ++ " AT " ++ join " " (chars domain)
               ++ ". Is that correct?"), call_started).
Proof.
  exact (proj2 (@email_is_split_at_first_at "ann@clinic@example.org"
                  call_started eq_refl) eq_refl).
Defined.

Lemma spelled_cons (c : ascii) (x : ascii) (rest : string) :
  join " - " (chars (String c (String x rest)))
  = String c (String " " (String "-" (String " "
      (join " - " (chars (String x rest)))))).
Proof. reflexivity. Qed.

Lemma spelled_length (s : string) :
  s <> "" ->
  (String.length (join " - " (chars s)) + 3 = 4 * String.length s)%nat.
Proof.
  induction s as [|c s IH]; [congruence|]. intros _.
  destruct s as [|x s]; [reflexivity|].
  rewrite spelled_cons.
  assert (H : String x s <> "") by discriminate.
  specialize (IH H). cbn [String.length] in *. lia.
Qed.

Lemma spelled_get (s : string) (i : nat) :
  String.get (4 * i) (join " - " (chars s)) = String.get i s.
Proof.
  revert i. induction s as [|c s IH]; intros i.
  - cbn. now destruct (4 * i)%nat.
  - destruct s as [|x s].
    + destruct i as [|i]; [reflexivity|].
      replace (4 * S i)%nat with (S (S (S (S (4 * i))))) by lia.
      cbn. now destruct i.
    + rewrite spelled_cons. destruct i as [|i]; [reflexivity|].
      replace (4 * S i)%nat with (S (S (S (S (4 * i))))) by lia.
      cbn [String.get]. apply IH.
Qed.

Lemma spelled_separator (s : string) (i : nat) :
  (S i < String.length s)%nat ->
  String.get (4 * i + 1) (join " - " (chars s)) = Some " "%char
  /\ String.get (4 * i + 2) (join " - " (chars s)) = Some "-"%char
  /\ String.get (4 * i + 3) (join " - " (chars s)) = Some " "%char.
Proof.
  revert i. induction s as [|c s IH]; intros i Hi; [cbn in Hi; lia|].
  destruct s as [|x s]; [cbn in Hi; lia|].
  rewrite spelled_cons. destruct i as [|i].
  - cbn. repeat split; reflexivity.
  - replace (4 * S i + 1)%nat with (S (S (S (S (4 * i + 1))))) by lia.
    replace (4 * S i + 2)%nat with (S (S (S (S (4 * i + 2))))) by lia.
    replace (4 * S i + 3)%nat with (S (S (S (S (4 * i + 3))))) by lia.
    cbn [String.get]. apply IH. cbn [String.length] in *. lia.
Qed.

Lemma upper_get (s : string) (i : nat) :
  String.get i (upper s) = option_map upper_char (String.get i s).
Proof.
  revert i. induction s as [|c s IH]; intros i; [reflexivity|].
  destruct i as [|i]; [reflexivity|]. cbn. apply IH.
Qed.

Lemma upper_length (s : string) : String.length (upper s) = String.length s.
Proof. induction s as [|c s IH]; cbn; [reflexivity|now rewrite IH]. Qed.

(** X24. [verify_name_spelling] on an ASCII name never fails and changes
    nothing.  The spelling it reads back has the name's characters, in
    order and with the letters [a] to [z] in upper case, at the positions
    0, 4, 8, ..., and the separator [ - ] between each two of them: for a
    name of [n >= 1] characters it is [4n - 3] characters long; an empty
    name is spelled as the empty text. *)
Theorem name_is_spelled_letter_by_letter :
  forall (name : string) (w : World),
    is_ascii name = true ->
    let spelled := join " - " (chars (upper name)) in
    verify_name_spelling name w
    = (Ret ("Let me confirm the spelling: " ++ spelled
            ++ ". Is that correct?"), w)
    /\ (forall i, String.get (4 * i) spelled
                  = option_map upper_char (String.get i name))
    /\ (forall i, (S i < String.length name)%nat ->
                  String.get (4 * i + 1) spelled = Some " "%char
                  /\ String.get (4 * i + 2) spelled = Some "-"%char
                  /\ String.get (4 * i + 3) spelled = Some " "%char)
    /\ (name <> "" ->
        (String.length spelled + 3 = 4 * String.length name)%nat)
    /\ (name = "" -> spelled = "").
Proof.
  intros name w _ spelled. subst spelled.
  split; [reflexivity|].
  split; [intros i; now rewrite spelled_get, upper_get|].
  split; [intros i Hi; apply spelled_separator; now rewrite upper_length|].
  split.
  - intros Hne. rewrite <- (upper_length name). apply spelled_length.
    destruct name; [congruence|discriminate].
  - now intros ->.
Qed.

Lemma name_is_spelled_letter_by_letter_witness :
  verify_name_spelling "Ann" call_started
  = (Ret "Let me confirm the spelling: A - N - N. Is that correct?",
     call_started).
Proof.
  exact (proj1 (@name_is_spelled_letter_by_letter "Ann" call_started eq_refl)).
Defined.

(** ** Logging along a conversation *)

Lemma first_row_member {R} (p : R -> bool) (l : list R) (r : R) :
  first_row (select p l) = Some r -> In r l.
Proof.
  unfold select. induction l as [|x l IH]; cbn; [discriminate|].
  destruct (p x); cbn.
  - intros H. injection H as ->. now left.
  - intros H. right. now apply IH.
Qed.

Lemma lookup_member (identifier : string) (d : DB) (v : User.t) :
  get_user_by_contact_or_email identifier d = Some v -> In v (users d).
Proof.
  unfold get_user_by_contact_or_email, get_user_by_contact, get_user_by_email.
  destruct (first_row (select (fun u => User.contact_number u =? identifier)
                              (users d))) as [u|] eqn:E.
  - intros H. injection H as <-. exact (first_row_member _ _ E).
  - apply first_row_member.
Qed.

Lemma create_appointment_users (uid : Id) (st : string) (du : Z)
      (sm : option string) (d : DB) :
  users (snd (create_appointment uid st du sm d)) = users d.
Proof.
  unfold create_appointment. now destruct (get_user_by_id uid d).
Qed.

(** The tools that neither identify nor enroll leave the users table
    alone. *)
Lemma other_tools_users (w : World) :
  (forall st du, users (db (snd (book_appointment st du w))) = users (db w)) /\
  (forall aid nt,
      users (db (snd (reschedule_user_appointment aid nt w))) = users (db w)) /\
  (forall aid,
      users (db (snd (cancel_user_appointment aid w))) = users (db w)) /\
  users (db (snd (retrieve_appointments w))) = users (db w) /\
  (forall date time,
      users (db (snd (check_time_slot_availability date time w)))
      = users (db w)) /\
  users (db (snd (fetch_slots w))) = users (db w).
Proof.
  destruct w as [d [u room ctx sid] c ts tr].
  unfold book_appointment, reschedule_user_appointment,
    cancel_user_appointment, retrieve_appointments,
    check_time_slot_availability, fetch_slots, _emit_event.
  run_step.
  repeat split; intros;
    cbn -[append create_appointment reschedule_appointment cancel_appointment
          get_appointments check_availability has_id str_len join];
    destruct u as [user|]; try reflexivity;
    destruct room;
    cbn -[append create_appointment reschedule_appointment cancel_appointment
          get_appointments check_availability has_id str_len join];
    try reflexivity;
    try (pose proof (create_appointment_users (User.id user) st du None d)
          as HU;
         destruct (create_appointment (User.id user) st du None d)
           as [[a|] d']; exact HU);
    try (destruct (has_id aid (get_appointments (User.id user) d));
         cbn -[append reschedule_appointment cancel_appointment];
         try reflexivity;
         first [ pose proof (f_equal users
                               (reschedule_appointment_store aid nt d)) as HU;
                 destruct (reschedule_appointment aid nt d) as [[a|] d']
               | pose proof (f_equal users
                               (cancel_appointment_store aid d)) as HU;
                 destruct (cancel_appointment aid d) as [[|a l] d'] ];
         exact HU);
    try (destruct (get_appointments (User.id user) d); reflexivity);
    try (destruct (check_availability date time d); reflexivity).
Qed.

Lemma run_tasks_users (ts : list Task) (d : DB) :
  users (fold_left (fun d t => run_task t d) ts d) = users d.
Proof.
  revert d. induction ts as [|t ts IH]; intros d; cbn [fold_left];
    [reflexivity|].
  rewrite IH. now destruct t.
Qed.

Lemma verify_tools_pure (w : World) :
  (forall mobile_number, snd (verify_mobile_number mobile_number w) = w) /\
  (forall name, snd (verify_name_spelling name w) = w) /\
  (forall email, snd (verify_email_spelling email w) = w).
Proof.
  repeat split; intros; try reflexivity.
  unfold verify_email_spelling.
  destruct (contains_char "@" email); [|reflexivity].
  now destruct (split_once "@" email).
Qed.

Lemma truthy_id (uid : Id) : uid <> "" -> truthy (Some uid) = true.
Proof.
  intros H. unfold truthy. now apply negb_true_iff, String.eqb_neq.
Qed.

(** Every event of a conversation keeps tools and chat context in
    agreement, and the users in sight keyed. *)
Lemma happen_sound
      (reply : list User.t -> string -> option string -> option string -> Reply)
      (e : Event) (w : World) :
  sound w -> sound (happen reply e w).
Proof.
  intros Hs.
  destruct (coherent_preserved reply (proj1 Hs))
    as [Ci [Ce [Ca [Cb [Cr [Cc [Cl [Cs Cf]]]]]]]].
  destruct Hs as [[Hctx Hc] [Hk Hu]].
  destruct (other_tools_frame w) as [Fb [Fr [Fc [Fl [Fa Ff]]]]].
  destruct (other_tools_users w) as [Ub [Ur [Uc [Ul [Ua Uf]]]]].
  destruct (verify_tools_pure w) as [Vm [Vn Ve]].
  assert (Hcoh : coherent w) by (split; assumption).
  destruct e as [ident|mn|nm|em|cn fn ln em|date time| |st du|aid nt| |aid
                |role content| | ]; cbn [happen].
  - split; [apply Ci|].
    pose proof (identify_user_effect ident w) as H. cbv zeta in H.
    destruct (get_user_by_contact_or_email ident (db w)) as [v|] eqn:E.
    + destruct H as [_ [Ht [Hd _]]]. rewrite Ht, Hd. cbn [tools _user].
      split; [exact Hk|].
      intros u Heq. injection Heq as <-. apply Hk.
      exact (lookup_member _ _ E).
    + destruct H as [_ [Ht [Hd _]]]. rewrite Ht, Hd. split; assumption.
  - rewrite Vm. repeat split; assumption.
  - rewrite Vn. repeat split; assumption.
  - rewrite Ve. repeat split; assumption.
  - split; [apply Ce|].
    pose proof (create_user_account_effect reply cn fn ln em w) as H.
    cbv zeta in H.
    destruct (reply (users (db w)) cn (Some (fn ++ " " ++ ln))
                    (email_column em)).
    + destruct H as [_ [Ht [Hd _]]]. rewrite Ht, Hd.
      cbn [tools _user]. split.
      * intros u Hin. cbn in Hin. apply in_app_iff in Hin.
        destruct Hin as [Hin|[<-|[]]]; [now apply Hk|].
        apply fresh_id_nonempty.
      * intros u Heq. injection Heq as <-. apply fresh_id_nonempty.
    + destruct H as [_ [Ht [Hd _]]]. rewrite Ht, Hd. split; assumption.
    + destruct H as [_ [Ht [Hd _]]]. rewrite Ht, Hd. split; assumption.
  - split; [apply Cs|]. unfold keyed. rewrite (Ua date time).
    destruct (Fa date time) as [-> _]. split; assumption.
  - split; [apply Cf|]. unfold keyed. rewrite Uf.
    destruct Ff as [-> _]. split; assumption.
  - split; [apply Cb|]. unfold keyed. rewrite (Ub st du).
    destruct (Fb st du) as [-> _]. split; assumption.
  - split; [apply Cr|]. unfold keyed. rewrite (Ur aid nt).
    destruct (Fr aid nt) as [-> _]. split; assumption.
  - split; [apply Cl|]. unfold keyed. rewrite Ul.
    destruct Fl as [-> _]. split; assumption.
  - split; [apply Cc|]. unfold keyed. rewrite (Uc aid).
    destruct (Fc aid) as [-> _]. split; assumption.
  - split; [apply Ca|].
    destruct (add_message_effect role content w) as [_ [Hd [Ht _]]].
    unfold keyed. rewrite Hd, Ht. split; assumption.
  - split; [split; assumption|].
    unfold keyed, run_tasks. cbn. rewrite run_tasks_users.
    split; assumption.
  - split; [split; assumption|]. split; assumption.
Qed.

Lemma conversation_sound
      (reply : list User.t -> string -> option string -> option string -> Reply)
      (events : list Event) (w : World) :
  sound w -> sound (conversation reply events w).
Proof.
  unfold conversation. revert w.
  induction events as [|e events IH]; intros w Hs; cbn [fold_left];
    [exact Hs|].
  apply IH. now apply happen_sound.
Qed.

(** Only the two binding tools change whom the tools hold. *)
Lemma happen_unbound
      (reply : list User.t -> string -> option string -> option string -> Reply)
      (e : Event) (w : World) :
  binds e = false -> tools (happen reply e w) = tools w.
Proof.
  destruct (other_tools_frame w) as [Fb [Fr [Fc [Fl [Fa Ff]]]]].
  destruct (verify_tools_pure w) as [Vm [Vn Ve]].
  destruct e; cbn [binds happen]; intros H; try discriminate H;
    rewrite ?Vm, ?Vn, ?Ve; try reflexivity.
  - apply Fa.
  - apply Ff.
  - apply Fb.
  - apply Fr.
  - apply Fl.
  - apply Fc.
  - now destruct (add_message_effect role content w) as [_ [_ [Ht _]]].
Qed.

Lemma conversation_unbound
      (reply : list User.t -> string -> option string -> option string -> Reply)
      (events : list Event) (w : World) :
  forallb (fun e => negb (binds e)) events = true ->
  tools (conversation reply events w) = tools w.
Proof.
  unfold conversation. revert w.
  induction events as [|e events IH]; intros w H; cbn [fold_left];
    [reflexivity|].
  cbn in H. apply andb_true_iff in H. destruct H as [He H].
  rewrite (IH _ H). apply happen_unbound. now apply negb_true_iff.
Qed.

(** A world that has the tools and the chat context as a completed
    start-up sequence set them up is sound, with nobody identified. *)
Lemma sound_at_start (env : Env) (w0 w1 : World) :
  fst (entrypoint env w0) = Ret tt ->
  tools w1 = tools (snd (entrypoint env w0)) ->
  chat w1 = chat (snd (entrypoint env w0)) ->
  keyed (db w1) ->
  sound w1 /\ _user (tools w1) = None.
Proof.
  intros Hok Ht Hc Hk.
  destruct (coherent_at_start env w0 Hok) as [[Hctx Hid] Hn].
  rewrite <- Ht in Hctx, Hid, Hn. rewrite <- Hc in Hid.
  split; [|exact Hn]. split; [split; assumption|]. split; [exact Hk|].
  intros u Hu. rewrite Hn in Hu. discriminate Hu.
Qed.

(** In a sound world, the rows a turn adds to the messages table. *)
Lemma turn_rows (w : World) (role content : string) :
  sound w ->
  messages (db (run_tasks (snd (add_message role content w))))
  = (messages (db (run_tasks w))
     ++ match _user (tools w) with
        | Some user =>
            [ChatMessage.mk (User.id user) role content (clock (db w))]
        | None => []
        end)%list.
Proof.
  intros [[_ Hc] [_ Hu]].
  destruct (add_message_effect role content w) as [_ [Hd [_ [_ [_ Hk]]]]].
  rewrite !run_tasks_messages, Hd, Hk, map_app, app_assoc, Hc.
  destruct (_user (tools w)) as [user|]; cbn [option_map]; [|reflexivity].
  now rewrite (truthy_id (Hu user eq_refl)).
Qed.

(** C9. Take the call when the start-up sequence has handed over: the
    tools and the chat context are as the sequence set them up, and the
    shared store is whatever it is then.  Along any conversation from
    there -- tool calls, added turns, runs of the event loop and the
    passing of time, in any order -- a turn added with [add_message] joins
    the context, and once the event loop has run the tasks the messages
    table has gained exactly one row for it, under the id of the identified
    user, when the tools hold an identified user at the time the turn is
    added, and no row otherwise: a row is written if and only if the
    session is bound.  Nothing is written at the moment the turn is added
    (the write is a task).  As long as neither [identify_user] nor
    [create_user_account] has been called nobody is bound and no turn is
    logged; the start-up sequence itself, which adds the system message,
    schedules no write and writes nothing.  The rows of the users table are
    taken to have an id, as generated keys have. *)
Theorem turn_logged_iff_bound :
  forall (reply : list User.t -> string -> option string -> option string
                  -> Reply)
         (env : Env) (w0 w1 : World) (events : list Event)
         (role content : string),
    fst (entrypoint env w0) = Ret tt ->
    tools w1 = tools (snd (entrypoint env w0)) ->
    chat w1 = chat (snd (entrypoint env w0)) ->
    keyed (db w1) ->
    let w := conversation reply events w1 in
    let w' := snd (add_message role content w) in
    let logged := messages (db (run_tasks w')) in
    let before := messages (db (run_tasks w)) in
    PersistentChatContext.items (chat w')
    = (PersistentChatContext.items (chat w) ++ [(role, content)])%list
    /\ messages (db w') = messages (db w)
    /\ logged
       = (before ++ match _user (tools w) with
                    | Some user =>
                        [ChatMessage.mk (User.id user) role content
                                        (clock (db w))]
                    | None => []
                    end)%list
    /\ (logged <> before <-> _user (tools w) <> None)
    /\ (forallb (fun e => negb (binds e)) events = true ->
        _user (tools w) = None /\ logged = before)
    /\ tasks (snd (entrypoint env w0)) = tasks w0
    /\ messages (db (snd (entrypoint env w0))) = messages (db w0).
Proof.
  intros reply env w0 w1 events role content Hok Htools Hchat Hkeyed
         w w' logged before.
  destruct (sound_at_start env w0 w1 Hok Htools Hchat Hkeyed) as [Hs0 Hn0].
  assert (Hs : sound w) by (apply conversation_sound; exact Hs0).
  destruct (add_message_effect role content w) as [_ [Hd [_ [Hi _]]]].
  fold w' in Hd, Hi.
  assert (Hlog : logged
                 = (before ++ match _user (tools w) with
                              | Some user =>
                                  [ChatMessage.mk (User.id user) role content
                                                  (clock (db w))]
                              | None => []
                              end)%list)
    by (apply turn_rows; exact Hs).
  split; [exact Hi|]. split; [now rewrite Hd|]. split; [exact Hlog|].
  split; [|split].
  - rewrite Hlog. destruct (_user (tools w)) as [user|].
    + split; [discriminate | intros _; apply app_one_neq].
    + rewrite app_nil_r. split; intros H; now destruct H.
  - intros Hnb.
    assert (Hnone : _user (tools w) = None).
    { subst w. now rewrite (conversation_unbound reply _ _ Hnb). }
    split; [exact Hnone|]. rewrite Hlog, Hnone. apply app_nil_r.
  - destruct (entrypoint_runs env w0) as [l [_ [_ [Hts [Hms _]]]]].
    split; assumption.
Qed.

Lemma turn_logged_iff_bound_witness :
  messages (db (run_tasks (conversation unique_contact chat_with_alice
                             call_listening)))
  = []
  /\ messages
       (db (run_tasks
              (snd (add_message "user" "Book me in"
                      (conversation unique_contact chat_with_alice
                         call_listening)))))
     = [ChatMessage.mk "1" "user" "Book me in" 1].
Proof.
  assert (Hk : keyed (db call_listening)).
  { intros u [<-|[<-|[]]]; discriminate. }
  pose proof (@turn_logged_iff_bound unique_contact avatar_hangs call_started
                call_listening chat_with_alice "user" "Book me in"
                eq_refl eq_refl eq_refl Hk) as H.
  cbv zeta in H. destruct H as [_ [_ [H _]]].
  split; [vm_compute; reflexivity|]. exact H.
Defined.
